(** * Bank Lending System frontend: debounced identifier resolver,
      overview fetch coordinator and mutation forms

    A shallow embedding of the React components [App], [PaymentForm],
    [LoanApplication] and [LoanLedger].  Component state is a record, every
    [useState] setter call is a command, an [async] handler is a finite tree
    of commands that suspends at each [await] of a network request, and the
    browser (timers, in-flight requests, re-rendering and effects) is an
    explicit world stepped by events. *)

From Stdlib Require Import String Ascii List Bool Arith ZArith QArith Lia.
From Stdlib Require Import DecimalString.
Import ListNotations.
Local Close Scope Q_scope.
Local Open Scope string_scope.

(* ===================================================================== *)
(** * JavaScript primitives used by the components *)
(* ===================================================================== *)

Module JS.

(** [!s] is false exactly for the non-empty string. *)
Definition truthy (s : string) : bool := negb (s =? "").

(** [a || b] on strings that may be [undefined]. *)
Definition or_else (a : option string) (b : string) : string :=
  match a with
  | Some s => if truthy s then s else b
  | None => b
  end.

(** White space removed by [String.prototype.trim], for code units below
    256: TAB, LF, VT, FF, CR, SPACE and NBSP. *)
Definition is_white_space (c : ascii) : bool :=
  let n := nat_of_ascii c in
  (((9 <=? n) && (n <=? 13)) || (n =? 32) || (n =? 160))%nat.

Fixpoint trimStart (s : string) : string :=
  match s with
  | String c r => if is_white_space c then trimStart r else s
  | EmptyString => EmptyString
  end.

Fixpoint rev_onto (s acc : string) : string :=
  match s with
  | String c r => rev_onto r (String c acc)
  | EmptyString => acc
  end.

Definition reverse (s : string) : string := rev_onto s "".

Definition trimEnd (s : string) : string := reverse (trimStart (reverse s)).

Definition trim (s : string) : string := trimEnd (trimStart s).

(** Template literal [`${n}`] for a non-negative integer. *)
Definition of_nat (n : nat) : string := NilEmpty.string_of_uint (Nat.to_uint n).

(** ** Numbers

    [parseFloat] and [parseInt] results.  A finite result keeps its sign
    and the exact mathematical value of the parsed literal; the components
    only ever compare the result with zero, and [le_zero] / [lt_zero] give
    the outcome of that comparison on the IEEE double the literal rounds
    to (a positive literal rounds to zero exactly when it is at most
    2^-1075). *)
Inductive number : Type :=
| NaN
| Infinity (negative : bool)
| Finite (negative : bool) (magnitude : Q).

Definition underflow : Q := (1 # (2 ^ 1075))%Q.

(** [x <= 0] *)
Definition le_zero (x : number) : bool :=
  match x with
  | NaN => false
  | Infinity neg => neg
  | Finite neg q => neg || Qle_bool q underflow
  end.

(** [x < 0] *)
Definition lt_zero (x : number) : bool :=
  match x with
  | NaN => false
  | Infinity neg => neg
  | Finite neg q => neg && negb (Qle_bool q underflow)
  end.

Definition is_digit (c : ascii) : bool :=
  let n := nat_of_ascii c in ((48 <=? n) && (n <=? 57))%nat.

(** Longest prefix of decimal digits, and what follows it. *)
Fixpoint span_digits (s : string) : string * string :=
  match s with
  | String c r =>
      if is_digit c
      then let (d, rest) := span_digits r in (String c d, rest)
      else ("", s)
  | EmptyString => ("", "")
  end.

Fixpoint digits_value_from (acc : N) (s : string) : N :=
  match s with
  | String c r => digits_value_from (10 * acc + (N.of_nat (nat_of_ascii c) - 48))%N r
  | EmptyString => acc
  end.

Definition digits_value (s : string) : N := digits_value_from 0%N s.

Definition read_sign (s : string) : bool * string :=
  match s with
  | String "-" r => (true, r)
  | String "+" r => (false, r)
  | _ => (false, s)
  end.

(** Optional exponent part: [e] or [E], optional sign, at least one digit. *)
Definition read_exponent (s : string) : Z :=
  match s with
  | String c r =>
      if (Ascii.eqb c "e" || Ascii.eqb c "E")%bool then
        let (neg, r') := read_sign r in
        let (d, _) := span_digits r' in
        if truthy d
        then (if neg then - Z.of_N (digits_value d) else Z.of_N (digits_value d))%Z
        else 0%Z
      else 0%Z
  | EmptyString => 0%Z
  end.

Definition scale (n : N) (e : Z) : Q :=
  match e with
  | Zneg p => (Z.of_N n # (10 ^ p))%Q
  | _ => ((Z.of_N n * 10 ^ e)%Z # 1)%Q
  end.

(** [parseFloat(s)]: skip leading white space, then take the longest
    prefix that is a decimal literal; [NaN] when there is none. *)
Definition parseFloat (s : string) : number :=
  let (neg, body) := read_sign (trimStart s) in
  if prefix "Infinity" body then Infinity neg
  else
    let (int_part, r1) := span_digits body in
    let (frac_part, r2) :=
      match r1 with
      | String "." r => span_digits r
      | _ => ("", r1)
      end in
    if truthy int_part || truthy frac_part then
      Finite neg (scale (digits_value (int_part ++ frac_part))
                        (read_exponent r2 - Z.of_nat (String.length frac_part)))
    else NaN.

(** [parseInt(s, 10)] *)
Definition parseInt (s : string) : number :=
  let (neg, body) := read_sign (trimStart s) in
  let (d, _) := span_digits body in
  if truthy d then Finite neg (Z.of_N (digits_value d) # 1)%Q else NaN.

End JS.

(* ===================================================================== *)
(** * Network requests and asynchronous handlers *)
(* ===================================================================== *)

(** A JavaScript [Error]: its message and, for an error raised by axios on a
    non-2xx response, the status of the response it carries. *)
Record Error : Type := new_Error {
  err_message : string;
  err_response_status : option nat
}.

Definition TypeError (message : string) : Error := new_Error message None.

Inductive Method : Type := GET | POST.

(** Request bodies before [JSON.stringify]. *)
Inductive Payload : Type :=
| payment_payload (amount : JS.number) (payment_type : string)
| loan_payload (customer_id : string) (loan_amount interest_rate_yearly
                                       loan_period_years : JS.number).

Record Request : Type := {
  method : Method;
  url : string;
  body : option Payload
}.

(** What [response.json()] gives for a body of type [B]: the parsed value, or
    an exception when the body cannot be read as an object (invalid JSON, or
    [null], whose fields cannot be read). *)
Inductive Json (B : Type) : Type :=
| json_throws (message : string)
| json_value (b : B).
Arguments json_throws {B} message.
Arguments json_value {B} b.

Record Response (B : Type) : Type := {
  status : nat;
  content : Json B
}.
Arguments status {B} r.
Arguments content {B} r.

(** [response.ok] *)
Definition ok {B} (r : Response B) : bool :=
  ((200 <=? status r) && (status r <=? 299))%nat.
Arguments ok : simpl never.

(** How a [fetch] promise settles. *)
Inductive Outcome (B : Type) : Type :=
| network_error (message : string)
| responded (r : Response B).
Arguments network_error {B} message.
Arguments responded {B} r.

(** A callback handed from [App] to a child component: the memoised
    [fetchCustomerOverview] closure, which captured [debouncedCustomerId] at
    the render that created it. *)
Inductive Callback : Type :=
| fetchCustomerOverview_closure (debouncedCustomerId : string).

(** Props of a rendered child, by attribute name. *)
Inductive PropValue (L : Type) : Type :=
| prop_string (s : string)
| prop_loans (l : list L)
| prop_function (f : Callback).
Arguments prop_string {L} s.
Arguments prop_loans {L} l.
Arguments prop_function {L} f.

Definition Props (L : Type) : Type := list (string * PropValue L).

(** Destructuring a function prop: [undefined] when no attribute of that
    name was passed. *)
Fixpoint prop_callback {L} (name : string) (props : Props L) : option Callback :=
  match props with
  | (n, v) :: rest =>
      if n =? name
      then match v with prop_function f => Some f | _ => None end
      else prop_callback name rest
  | [] => None
  end.

Section Async.
(** [C]: setter calls and other observable commands; [O]: what an awaited
    request settles to. *)
Context {C O : Type}.

(** The body of an [async] function: it returns, throws, performs a command
    and goes on, or awaits a request and goes on with its outcome. *)
Inductive Async (A : Type) : Type :=
| Return (a : A)
| Throw (e : Error)
| Emit (c : C) (k : Async A)
| Await (r : Request) (k : O -> Async A).
Arguments Return {A} a.
Arguments Throw {A} e.
Arguments Emit {A} c k.
Arguments Await {A} r k.

Fixpoint bind {A B} (m : Async A) (f : A -> Async B) : Async B :=
  match m with
  | Return a => f a
  | Throw e => Throw e
  | Emit c k => Emit c (bind k f)
  | Await r k => Await r (fun o => bind (k o) f)
  end.

Definition emit (c : C) : Async unit := Emit c (Return tt).

(** [try { m } catch (err) { h err }] *)
Fixpoint catch {A} (m : Async A) (h : Error -> Async A) : Async A :=
  match m with
  | Return a => Return a
  | Throw e => h e
  | Emit c k => Emit c (catch k h)
  | Await r k => Await r (fun o => catch (k o) h)
  end.

(** [try { m } finally { f }]: [f] runs on both completions of [m], which
    is then resumed. *)
Fixpoint finally {A} (m : Async A) (f : Async unit) : Async A :=
  match m with
  | Return a => bind f (fun _ => Return a)
  | Throw e => bind f (fun _ => Throw e)
  | Emit c k => Emit c (finally k f)
  | Await r k => Await r (fun o => finally (k o) f)
  end.

Definition try_catch_finally {A} (m : Async A) (h : Error -> Async A)
           (f : Async unit) : Async A :=
  finally (catch m h) f.

(** Where a handler stands after running to its next [await]. *)
Inductive Status (A : Type) : Type :=
| Fulfilled (a : A)
| Rejected (e : Error)
| Suspended (r : Request) (k : O -> Async A).
Arguments Fulfilled {A} a.
Arguments Rejected {A} e.
Arguments Suspended {A} r k.

(** Run synchronously up to the next [await]: the commands performed, in
    order, and the status reached. *)
Fixpoint run {A} (m : Async A) : list C * Status A :=
  match m with
  | Return a => ([], Fulfilled a)
  | Throw e => ([], Rejected e)
  | Emit c k => let (cs, st) := run k in (c :: cs, st)
  | Await r k => ([], Suspended r k)
  end.

(** Resume a suspended handler with the outcome of its request. *)
Definition settle {A} (st : Status A) (o : O) : list C * Status A :=
  match st with
  | Suspended _ k => run (k o)
  | _ => ([], st)
  end.
End Async.

Arguments Async C O A : clear implicits.
Arguments Status C O A : clear implicits.
Arguments Return {C O A} a.
Arguments Throw {C O A} e.
Arguments Emit {C O A} c k.
Arguments Await {C O A} r k.
Arguments Fulfilled {C O A} a.
Arguments Rejected {C O A} e.
Arguments Suspended {C O A} r k.

Declare Scope async_scope.
Delimit Scope async_scope with async.
Notation "x <- m ;; k" := (bind m (fun x => k))
  (at level 61, m at next level, right associativity) : async_scope.
Notation "m ;; k" := (bind m (fun _ => k))
  (at level 61, right associativity) : async_scope.

(** [await fetch(url, init)]: a rejected promise throws at the [await]. *)
Definition fetch {C B} (r : Request) : Async C (Outcome B) (Response B) :=
  Await r (fun o =>
    match o with
    | network_error m => Throw (TypeError m)
    | responded resp => Return resp
    end).

(** [await response.json()].  Reading the body is folded into the arrival of
    the response: the handlers perform no command between the two awaits. *)
Definition json {C O B} (r : Response B) : Async C O B :=
  match content r with
  | json_throws m => Throw (new_Error m None)
  | json_value b => Return b
  end.

(* ===================================================================== *)
(** * App.js: the resolver and the coordinator *)
(* ===================================================================== *)

(** A loan as the overview endpoint returns it.  Amounts are only stored and
    rendered by the frontend, never computed with. *)
Record Loan : Type := {
  loan_id : string;
  principal : Z;
  total_amount : Z;
  total_interest : Z;
  emi_amount : Z;
  amount_paid : Z;
  emis_left : Z
}.

Module App.
Local Open Scope async_scope.

Definition API_BASE_URL : string :=
  "https://bank-lending-system-backend.onrender.com/api/v1".

(** The [useState] cells of [App]. *)
Record State : Type := {
  currentView : string;
  customerId : string;
  debouncedCustomerId : string;
  customerLoans : list Loan;
  customerName : string;
  selectedLoanIdForLedger : option string;
  isLoading : bool;
  error : option string
}.

Definition initial : State := {|
  currentView := "home";
  customerId := "";
  debouncedCustomerId := "";
  customerLoans := [];
  customerName := "";
  selectedLoanIdForLedger := None;
  isLoading := false;
  error := None
|}.

(** Setter calls, and [console.error]. *)
Inductive Cmd : Type :=
| setCurrentView (v : string)
| setCustomerId (v : string)
| setDebouncedCustomerId (v : string)
| setCustomerLoans (v : list Loan)
| setCustomerName (v : string)
| setSelectedLoanIdForLedger (v : option string)
| setIsLoading (v : bool)
| setError (v : option string)
| console_error (label : string) (err : Error).

Definition update (s : State) (c : Cmd) : State :=
  match c with
  | setCurrentView v =>
      {| currentView := v; customerId := customerId s;
         debouncedCustomerId := debouncedCustomerId s;
         customerLoans := customerLoans s; customerName := customerName s;
         selectedLoanIdForLedger := selectedLoanIdForLedger s;
         isLoading := isLoading s; error := error s |}
  | setCustomerId v =>
      {| currentView := currentView s; customerId := v;
         debouncedCustomerId := debouncedCustomerId s;
         customerLoans := customerLoans s; customerName := customerName s;
         selectedLoanIdForLedger := selectedLoanIdForLedger s;
         isLoading := isLoading s; error := error s |}
  | setDebouncedCustomerId v =>
      {| currentView := currentView s; customerId := customerId s;
         debouncedCustomerId := v;
         customerLoans := customerLoans s; customerName := customerName s;
         selectedLoanIdForLedger := selectedLoanIdForLedger s;
         isLoading := isLoading s; error := error s |}
  | setCustomerLoans v =>
      {| currentView := currentView s; customerId := customerId s;
         debouncedCustomerId := debouncedCustomerId s;
         customerLoans := v; customerName := customerName s;
         selectedLoanIdForLedger := selectedLoanIdForLedger s;
         isLoading := isLoading s; error := error s |}
  | setCustomerName v =>
      {| currentView := currentView s; customerId := customerId s;
         debouncedCustomerId := debouncedCustomerId s;
         customerLoans := customerLoans s; customerName := v;
         selectedLoanIdForLedger := selectedLoanIdForLedger s;
         isLoading := isLoading s; error := error s |}
  | setSelectedLoanIdForLedger v =>
      {| currentView := currentView s; customerId := customerId s;
         debouncedCustomerId := debouncedCustomerId s;
         customerLoans := customerLoans s; customerName := customerName s;
         selectedLoanIdForLedger := v;
         isLoading := isLoading s; error := error s |}
  | setIsLoading v =>
      {| currentView := currentView s; customerId := customerId s;
         debouncedCustomerId := debouncedCustomerId s;
         customerLoans := customerLoans s; customerName := customerName s;
         selectedLoanIdForLedger := selectedLoanIdForLedger s;
         isLoading := v; error := error s |}
  | setError v =>
      {| currentView := currentView s; customerId := customerId s;
         debouncedCustomerId := debouncedCustomerId s;
         customerLoans := customerLoans s; customerName := customerName s;
         selectedLoanIdForLedger := selectedLoanIdForLedger s;
         isLoading := isLoading s; error := v |}
  | console_error _ _ => s
  end.

(** State after a batch of setter calls. *)
Definition apply (cs : list Cmd) (s : State) : State := fold_left update cs s.

(** The fields of an overview response body that the code reads. *)
Record OverviewBody : Type := {
  message : option string;
  customer_name : option string;
  loans : option (list Loan)
}.

Definition Handler : Type := Async Cmd (Outcome OverviewBody) unit.

(** The [setTimeout] callback of the debounce effect; [customerId] is the
    raw input captured by the render that set the timer. *)
Definition debounce_timeout (customerId : string) : Handler :=
  let trimmedInput := JS.trim customerId in
  if JS.truthy trimmedInput then
    emit (setDebouncedCustomerId trimmedInput)
  else
    emit (setDebouncedCustomerId "") ;;
    emit (setCustomerLoans []) ;;
    emit (setCustomerName "") ;;
    emit (setError None).

Definition overview_request (debouncedCustomerId : string) : Request := {|
  method := GET;
  url := API_BASE_URL ++ "/customers/" ++ debouncedCustomerId ++ "/overview";
  body := None
|}.

(** [fetchCustomerOverview], for the [debouncedCustomerId] its closure
    captured. *)
Definition fetchCustomerOverview (debouncedCustomerId : string) : Handler :=
  if negb (JS.truthy debouncedCustomerId) then
    emit (setCustomerLoans []) ;;
    emit (setCustomerName "")
  else
    emit (setIsLoading true) ;;
    emit (setError None) ;;
    try_catch_finally
      (response <- fetch (overview_request debouncedCustomerId) ;;
       if negb (ok response) then
         errorData <- json response ;;
         Throw (new_Error
                  (JS.or_else (message errorData)
                     ("HTTP error! status: " ++ JS.of_nat (status response)))
                  None)
       else
         data <- json response ;;
         emit (setCustomerLoans
                 (match loans data with Some l => l | None => [] end)) ;;
         emit (setCustomerName
                 (JS.or_else (customer_name data)
                    ("Customer " ++ debouncedCustomerId))))
      (fun err =>
         emit (console_error "Failed to fetch customer overview:" err) ;;
         emit (setError
                 (Some ("Failed to load customer data: " ++ err_message err
                        ++ ". Please check the Customer ID."))) ;;
         emit (setCustomerLoans []) ;;
         emit (setCustomerName ""))
      (emit (setIsLoading false)).

Definition handleViewChange (view : string) : Handler :=
  emit (setCurrentView view) ;;
  emit (setError None) ;;
  emit (setSelectedLoanIdForLedger None).

Definition handleViewLedger (loanId : string) : Handler :=
  emit (setSelectedLoanIdForLedger (Some loanId)) ;;
  emit (setCurrentView "ledger").

(** Attributes [App] passes when it renders its children. *)
Definition LoanApplication_props (s : State) : Props Loan :=
  [ ("customerId", prop_string (debouncedCustomerId s));
    ("onLoanApplied",
      prop_function (fetchCustomerOverview_closure (debouncedCustomerId s))) ].

Definition PaymentForm_props (s : State) : Props Loan :=
  [ ("loans", prop_loans (customerLoans s));
    ("onPaymentRecorded",
      prop_function (fetchCustomerOverview_closure (debouncedCustomerId s))) ].

(** Calling a function prop. *)
Definition call (f : Callback) : Handler :=
  match f with
  | fetchCustomerOverview_closure id => fetchCustomerOverview id
  end.

(** The spec's FetchState, read off the render conditions of [App]: the
    loading line shows while [isLoading], the error line while [error] is
    set, the overview when neither holds and an identifier is present, the
    "please enter a Customer ID" line when neither holds and none is. *)
Inductive FetchState : Type :=
| Idle
| Loading
| Success (name : string) (loans : list Loan)
| Failure (message : string).

Definition fetchState (s : State) : FetchState :=
  if isLoading s then Loading
  else match error s with
       | Some m => Failure m
       | None =>
           if JS.truthy (debouncedCustomerId s)
           then Success (customerName s) (customerLoans s)
           else Idle
       end.

(** ** The browser around the component *)

(** A pending [setTimeout]. *)
Record Timer : Type := {
  timer_id : nat;
  remaining : nat;             (* milliseconds until it fires *)
  captured_customerId : string (* [customerId] in the callback's closure *)
}.

(** An overview request awaiting its response. *)
Record Pending : Type := {
  request_id : nat;
  resume : Outcome OverviewBody -> Handler
}.

Record World : Type := {
  state : State;
  mounted : bool;
  debounceTimerRef : option nat;
  timers : list Timer;
  next_timer_id : nat;
  pending : list Pending;
  next_request_id : nat;
  calls : list Cmd;        (* every command performed, oldest first *)
  network : list Request;  (* every request issued, oldest first *)
  unhandled : list Error   (* rejections that no handler caught *)
}.

(** Run a handler up to its next [await].  Every call is recorded; React
    drops state updates of a component that is no longer mounted. *)
Definition exec (h : Handler) (w : World) : World :=
  let (cs, st) := run h in
  {| state := if mounted w then apply cs (state w) else state w;
     mounted := mounted w;
     debounceTimerRef := debounceTimerRef w;
     timers := timers w;
     next_timer_id := next_timer_id w;
     pending :=
       match st with
       | Suspended _ k =>
           pending w ++ [{| request_id := next_request_id w; resume := k |}]
       | _ => pending w
       end;
     next_request_id :=
       match st with
       | Suspended _ _ => S (next_request_id w)
       | _ => next_request_id w
       end;
     calls := calls w ++ cs;
     network :=
       match st with
       | Suspended r _ => network w ++ [r]
       | _ => network w
       end;
     unhandled :=
       match st with
       | Rejected e => unhandled w ++ [e]
       | _ => unhandled w
       end |}.

Definition with_timers (ref : option nat) (ts : list Timer) (next : nat)
           (w : World) : World :=
  {| state := state w; mounted := mounted w;
     debounceTimerRef := ref; timers := ts; next_timer_id := next;
     pending := pending w; next_request_id := next_request_id w;
     calls := calls w; network := network w; unhandled := unhandled w |}.

Definition with_pending (ps : list Pending) (w : World) : World :=
  {| state := state w; mounted := mounted w;
     debounceTimerRef := debounceTimerRef w; timers := timers w;
     next_timer_id := next_timer_id w;
     pending := ps; next_request_id := next_request_id w;
     calls := calls w; network := network w; unhandled := unhandled w |}.

Definition with_mounted (b : bool) (w : World) : World :=
  {| state := state w; mounted := b;
     debounceTimerRef := debounceTimerRef w; timers := timers w;
     next_timer_id := next_timer_id w;
     pending := pending w; next_request_id := next_request_id w;
     calls := calls w; network := network w; unhandled := unhandled w |}.

(** [clearTimeout(id)] *)
Definition clearTimeout (id : nat) (w : World) : World :=
  with_timers (debounceTimerRef w)
    (filter (fun t => negb (timer_id t =? id)%nat) (timers w))
    (next_timer_id w) w.

(** [if (debounceTimerRef.current) clearTimeout(debounceTimerRef.current)];
    a timer id is a positive integer, [null] and [0] are falsy. *)
Definition clear_debounce_timer (w : World) : World :=
  match debounceTimerRef w with
  | Some id => if (id =? 0)%nat then w else clearTimeout id w
  | None => w
  end.

(** Body of the debounce effect for the render in which the raw input is
    [customerId]: clear the previous timer, then
    [debounceTimerRef.current = setTimeout(..., 500)]. *)
Definition debounce_effect (customerId : string) (w : World) : World :=
  let w1 := clear_debounce_timer w in
  with_timers (Some (next_timer_id w1))
    (timers w1 ++ [{| timer_id := next_timer_id w1; remaining := 500;
                      captured_customerId := customerId |}])
    (S (next_timer_id w1)) w1.

(** Effects after a re-render, [before] being the state of the previous
    render: the debounce effect depends on [customerId] (its cleanup runs
    first), the fetch effect on [fetchCustomerOverview], which
    [useCallback] renews exactly when [debouncedCustomerId] changes. *)
Definition rerender (before : State) (w : World) : World :=
  if negb (mounted w) then w
  else
    let w1 :=
      if customerId before =? customerId (state w) then w
      else debounce_effect (customerId (state w)) (clear_debounce_timer w) in
    if debouncedCustomerId before =? debouncedCustomerId (state w1) then w1
    else exec (fetchCustomerOverview (debouncedCustomerId (state w1))) w1.

Definition dispatch (h : Handler) (w : World) : World :=
  rerender (state w) (exec h w).

(** First render: both effects run once. *)
Definition mount : World :=
  exec (fetchCustomerOverview (debouncedCustomerId initial))
    (debounce_effect (customerId initial)
       {| state := initial; mounted := true;
          debounceTimerRef := None; timers := []; next_timer_id := 1;
          pending := []; next_request_id := 1;
          calls := []; network := []; unhandled := [] |}).

Definition due (ms : nat) (t : Timer) : bool := (remaining t <=? ms)%nat.

Definition age (ms : nat) (t : Timer) : Timer :=
  {| timer_id := timer_id t; remaining := remaining t - ms;
     captured_customerId := captured_customerId t |}.

(** [ms] milliseconds pass: the timers that are due fire, oldest first. *)
Definition elapse (ms : nat) (w : World) : World :=
  fold_left
    (fun w' t => dispatch (debounce_timeout (captured_customerId t)) w')
    (filter (due ms) (timers w))
    (with_timers (debounceTimerRef w)
       (map (age ms) (filter (fun t => negb (due ms t)) (timers w)))
       (next_timer_id w) w).

(** The response to request [id] arrives. *)
Definition settle_request (id : nat) (o : Outcome OverviewBody) (w : World)
  : World :=
  match find (fun p => (request_id p =? id)%nat) (pending w) with
  | Some p =>
      dispatch (resume p o)
        (with_pending
           (filter (fun p => negb (request_id p =? id)%nat) (pending w)) w)
  | None => w
  end.

(** Unmounting runs the cleanup of the debounce effect. *)
Definition unmount (w : World) : World :=
  if mounted w then with_mounted false (clear_debounce_timer w) else w.

Inductive Event : Type :=
| Change (value : string)      (* [onChange] of the customer id input *)
| Elapse (ms : nat)
| Settle (id : nat) (o : Outcome OverviewBody)
| Navigate (view : string)     (* handleViewChange(view) is called *)
| ViewLedger (loanId : string) (* [onViewLedger] from the overview *)
| Invoke (f : Callback)        (* a child calls a function prop *)
| Unmount.

Definition step (w : World) (e : Event) : World :=
  match e with
  | Change v => if mounted w then dispatch (emit (setCustomerId v)) w else w
  | Elapse ms => elapse ms w
  | Settle id o => settle_request id o w
  | Navigate v => if mounted w then dispatch (handleViewChange v) w else w
  | ViewLedger l => if mounted w then dispatch (handleViewLedger l) w else w
  | Invoke f => dispatch (call f) w
  | Unmount => unmount w
  end.

Definition steps (es : list Event) (w : World) : World := fold_left step es w.

(** StableIdentifier publications: the values passed to
    [setDebouncedCustomerId], oldest first. *)
Fixpoint publications (cs : list Cmd) : list string :=
  match cs with
  | setDebouncedCustomerId v :: r => v :: publications r
  | _ :: r => publications r
  | [] => []
  end.
End App.

(* ===================================================================== *)
(** * PaymentForm/index.js *)
(* ===================================================================== *)

(** The revision cited by the coordinator's wiring (state names
    [paymentAmount], [responseFeedback], ...).  The other revision in the
    repository has the same [handleSubmit] up to state names and message
    texts. *)
Module PaymentForm.
Local Open Scope async_scope.

Definition API_BASE_URL : string := "http://localhost:5000/api/v1".

(** The fields of a payment response body that the code reads or shows. *)
Record PaymentBody : Type := {
  message : option string;
  payment_id : string;
  paid_loan_id : string;
  remaining_balance : Z;
  emis_left_after : Z
}.

Record Feedback : Type := {
  text : option string;
  data : option PaymentBody
}.

Record State : Type := {
  selectedLoanId : string;
  paymentAmount : string;
  paymentType : string;
  responseFeedback : option Feedback;
  isPaymentSuccess : option bool;
  isProcessingPayment : bool
}.

Definition initial : State := {|
  selectedLoanId := "";
  paymentAmount := "";
  paymentType := "EMI";
  responseFeedback := None;
  isPaymentSuccess := None;
  isProcessingPayment := false
|}.

Inductive Cmd : Type :=
| preventDefault
| setSelectedLoanId (v : string)
| setPaymentAmount (v : string)
| setPaymentType (v : string)
| setResponseFeedback (v : option Feedback)
| setIsPaymentSuccess (v : option bool)
| setIsProcessingPayment (v : bool)
| console_log (label : string)
| call_prop (f : Callback).

Definition update (s : State) (c : Cmd) : State :=
  match c with
  | setSelectedLoanId v =>
      {| selectedLoanId := v; paymentAmount := paymentAmount s;
         paymentType := paymentType s;
         responseFeedback := responseFeedback s;
         isPaymentSuccess := isPaymentSuccess s;
         isProcessingPayment := isProcessingPayment s |}
  | setPaymentAmount v =>
      {| selectedLoanId := selectedLoanId s; paymentAmount := v;
         paymentType := paymentType s;
         responseFeedback := responseFeedback s;
         isPaymentSuccess := isPaymentSuccess s;
         isProcessingPayment := isProcessingPayment s |}
  | setPaymentType v =>
      {| selectedLoanId := selectedLoanId s;
         paymentAmount := paymentAmount s; paymentType := v;
         responseFeedback := responseFeedback s;
         isPaymentSuccess := isPaymentSuccess s;
         isProcessingPayment := isProcessingPayment s |}
  | setResponseFeedback v =>
      {| selectedLoanId := selectedLoanId s;
         paymentAmount := paymentAmount s; paymentType := paymentType s;
         responseFeedback := v;
         isPaymentSuccess := isPaymentSuccess s;
         isProcessingPayment := isProcessingPayment s |}
  | setIsPaymentSuccess v =>
      {| selectedLoanId := selectedLoanId s;
         paymentAmount := paymentAmount s; paymentType := paymentType s;
         responseFeedback := responseFeedback s;
         isPaymentSuccess := v;
         isProcessingPayment := isProcessingPayment s |}
  | setIsProcessingPayment v =>
      {| selectedLoanId := selectedLoanId s;
         paymentAmount := paymentAmount s; paymentType := paymentType s;
         responseFeedback := responseFeedback s;
         isPaymentSuccess := isPaymentSuccess s;
         isProcessingPayment := v |}
  | preventDefault | console_log _ | call_prop _ => s
  end.

Definition apply (cs : list Cmd) (s : State) : State := fold_left update cs s.

Definition Handler : Type := Async Cmd (Outcome PaymentBody) unit.

(** The effect on the [loans] prop: select the first loan, or none. *)
Definition loans_effect (loans : option (list Loan)) : Handler :=
  (match loans with
   | Some (first :: _) => emit (setSelectedLoanId (loan_id first))
   | _ => emit (setSelectedLoanId "") ;; emit (setResponseFeedback None)
   end) ;;
  emit (setPaymentAmount "").

Definition payment_request (s : State) : Request := {|
  method := POST;
  url := API_BASE_URL ++ "/loans/" ++ selectedLoanId s ++ "/payments";
  body := Some (payment_payload (JS.parseFloat (paymentAmount s))
                                (paymentType s))
|}.

(** The client-side check at the top of [handleSubmit]. *)
Definition invalid (s : State) : bool :=
  negb (JS.truthy (selectedLoanId s))
  || JS.le_zero (JS.parseFloat (paymentAmount s))
  || negb (JS.truthy (paymentType s)).

(** [handleSubmit], for the [onPaymentRecorded] prop and the state of the
    render whose form was submitted. *)
Definition handleSubmit (onPaymentRecorded : option Callback) (s : State)
  : Handler :=
  emit preventDefault ;;
  if invalid s then
    emit (setIsPaymentSuccess (Some false)) ;;
    emit (setResponseFeedback
            (Some {| text := Some "Please select a loan, ensure payment amount is positive, and select a payment type.";
                     data := None |}))
  else
    emit (setResponseFeedback None) ;;
    emit (setIsPaymentSuccess None) ;;
    emit (setIsProcessingPayment true) ;;
    try_catch_finally
      (response <- fetch (payment_request s) ;;
       result <- json response ;;
       emit (console_log "Payment API Response Status:") ;;
       emit (console_log "Payment API Response.ok:") ;;
       emit (console_log "Payment API Response Body (result):") ;;
       if ok response then
         emit (setIsPaymentSuccess (Some true)) ;;
         emit (setResponseFeedback
                 (Some {| text := message result; data := Some result |})) ;;
         emit (setPaymentAmount "") ;;
         emit (setPaymentType "EMI") ;;
         match onPaymentRecorded with
         | Some f => emit (call_prop f)
         | None => Return tt
         end
       else
         emit (setIsPaymentSuccess (Some false)) ;;
         emit (setResponseFeedback
                 (Some {| text := Some (JS.or_else (message result)
                                          "An unexpected server error occurred during payment. Please try again.");
                          data := None |})))
      (fun error =>
         emit (setIsPaymentSuccess (Some false)) ;;
         emit (setResponseFeedback
                 (Some {| text := Some ("Network error: " ++ err_message error
                                        ++ ". Please ensure your backend server is running and accessible.");
                          data := None |})))
      (emit (setIsProcessingPayment false)).
End PaymentForm.

(* ===================================================================== *)
(** * LoanApplication/index.js *)
(* ===================================================================== *)

Module LoanApplication.
Local Open Scope async_scope.

Definition API_ENDPOINT : string :=
  "https://bank-lending-system-backend.onrender.com/api/v1/loans".

Record LoanData : Type := {
  created_loan_id : string;
  created_customer_id : string;
  total_amount_payable : Z;
  monthly_emi : Z
}.

(** The fields of a loan creation response body that the code reads. *)
Record LoanBody : Type := {
  message : option string;
  data : option LoanData
}.

Record SubmissionMessage : Type := {
  text : option string;
  shown_data : option LoanData
}.

Record State : Type := {
  customerId : string;
  loanAmount : string;
  loanPeriodYears : string;
  interestRateYearly : string;
  submissionMessage : option SubmissionMessage;
  isSubmissionSuccess : option bool;
  isSubmitting : bool
}.

Definition initial : State := {|
  customerId := "";
  loanAmount := "";
  loanPeriodYears := "";
  interestRateYearly := "10.0";
  submissionMessage := None;
  isSubmissionSuccess := None;
  isSubmitting := false
|}.

Inductive Cmd : Type :=
| preventDefault
| setCustomerId (v : string)
| setLoanAmount (v : string)
| setLoanPeriodYears (v : string)
| setInterestRateYearly (v : string)
| setSubmissionMessage (v : option SubmissionMessage)
| setIsSubmissionSuccess (v : option bool)
| setIsSubmitting (v : bool)
| call_prop (f : Callback).

Definition update (s : State) (c : Cmd) : State :=
  match c with
  | setCustomerId v =>
      {| customerId := v; loanAmount := loanAmount s;
         loanPeriodYears := loanPeriodYears s;
         interestRateYearly := interestRateYearly s;
         submissionMessage := submissionMessage s;
         isSubmissionSuccess := isSubmissionSuccess s;
         isSubmitting := isSubmitting s |}
  | setLoanAmount v =>
      {| customerId := customerId s; loanAmount := v;
         loanPeriodYears := loanPeriodYears s;
         interestRateYearly := interestRateYearly s;
         submissionMessage := submissionMessage s;
         isSubmissionSuccess := isSubmissionSuccess s;
         isSubmitting := isSubmitting s |}
  | setLoanPeriodYears v =>
      {| customerId := customerId s; loanAmount := loanAmount s;
         loanPeriodYears := v;
         interestRateYearly := interestRateYearly s;
         submissionMessage := submissionMessage s;
         isSubmissionSuccess := isSubmissionSuccess s;
         isSubmitting := isSubmitting s |}
  | setInterestRateYearly v =>
      {| customerId := customerId s; loanAmount := loanAmount s;
         loanPeriodYears := loanPeriodYears s;
         interestRateYearly := v;
         submissionMessage := submissionMessage s;
         isSubmissionSuccess := isSubmissionSuccess s;
         isSubmitting := isSubmitting s |}
  | setSubmissionMessage v =>
      {| customerId := customerId s; loanAmount := loanAmount s;
         loanPeriodYears := loanPeriodYears s;
         interestRateYearly := interestRateYearly s;
         submissionMessage := v;
         isSubmissionSuccess := isSubmissionSuccess s;
         isSubmitting := isSubmitting s |}
  | setIsSubmissionSuccess v =>
      {| customerId := customerId s; loanAmount := loanAmount s;
         loanPeriodYears := loanPeriodYears s;
         interestRateYearly := interestRateYearly s;
         submissionMessage := submissionMessage s;
         isSubmissionSuccess := v;
         isSubmitting := isSubmitting s |}
  | setIsSubmitting v =>
      {| customerId := customerId s; loanAmount := loanAmount s;
         loanPeriodYears := loanPeriodYears s;
         interestRateYearly := interestRateYearly s;
         submissionMessage := submissionMessage s;
         isSubmissionSuccess := isSubmissionSuccess s;
         isSubmitting := v |}
  | preventDefault | call_prop _ => s
  end.

Definition apply (cs : list Cmd) (s : State) : State := fold_left update cs s.

Definition Handler : Type := Async Cmd (Outcome LoanBody) unit.

Definition loan_request (s : State) : Request := {|
  method := POST;
  url := API_ENDPOINT;
  body := Some (loan_payload (JS.trim (customerId s))
                  (JS.parseFloat (loanAmount s))
                  (JS.parseFloat (interestRateYearly s))
                  (JS.parseInt (loanPeriodYears s)))
|}.

(** The client-side check at the top of [handleSubmit]. *)
Definition invalid (s : State) : bool :=
  negb (JS.truthy (JS.trim (customerId s)))
  || JS.le_zero (JS.parseFloat (loanAmount s))
  || JS.lt_zero (JS.parseFloat (interestRateYearly s))
  || JS.le_zero (JS.parseInt (loanPeriodYears s)).

(** [handleSubmit], for the [onLoanCreated] prop and the state of the
    render whose form was submitted. *)
Definition handleSubmit (onLoanCreated : option Callback) (s : State)
  : Handler :=
  emit preventDefault ;;
  if invalid s then
    emit (setIsSubmissionSuccess (Some false)) ;;
    emit (setSubmissionMessage
            (Some {| text := Some "Please ensure all fields are filled correctly: Customer ID, positive Loan Amount, non-negative Annual Interest Rate, and positive Loan Period.";
                     shown_data := None |}))
  else
    emit (setSubmissionMessage None) ;;
    emit (setIsSubmissionSuccess None) ;;
    emit (setIsSubmitting true) ;;
    try_catch_finally
      (response <- fetch (loan_request s) ;;
       result <- json response ;;
       if ok response then
         emit (setIsSubmissionSuccess (Some true)) ;;
         emit (setSubmissionMessage
                 (Some {| text := message result;
                          shown_data := data result |})) ;;
         emit (setCustomerId "") ;;
         emit (setLoanAmount "") ;;
         emit (setLoanPeriodYears "") ;;
         emit (setInterestRateYearly "10.0") ;;
         match onLoanCreated with
         | Some f => emit (call_prop f)
         | None => Return tt
         end
       else
         emit (setIsSubmissionSuccess (Some false)) ;;
         emit (setSubmissionMessage
                 (Some {| text := Some (JS.or_else (message result)
                                          "An unexpected server error occurred during loan application. Please try again.");
                          shown_data := None |})))
      (fun error =>
         emit (setIsSubmissionSuccess (Some false)) ;;
         emit (setSubmissionMessage
                 (Some {| text := Some ("Network error: " ++ err_message error
                                        ++ ". Please ensure your backend server is running and accessible at "
                                        ++ API_ENDPOINT ++ ".");
                          shown_data := None |})))
      (emit (setIsSubmitting false)).
End LoanApplication.

(* ===================================================================== *)
(** * LoanLedger/index.js *)
(* ===================================================================== *)

Module LoanLedger.
Local Open Scope async_scope.

Definition API_BASE_URL : string := "http://localhost:5000/api/v1".

Record Transaction : Type := {
  transaction_id : string;
  date : string;
  type : string;
  amount : Z
}.

Record LedgerData : Type := {
  ledger_loan_id : string;
  ledger_customer_id : string;
  ledger_principal : Z;
  ledger_total_amount : Z;
  monthly_emi : Z;
  ledger_amount_paid : Z;
  balance_amount : Z;
  ledger_emis_left : Z;
  transactions : list Transaction
}.

Record State : Type := {
  selectedLoanId : string;
  loanLedgerData : option LedgerData;
  isLoadingLedger : bool;
  ledgerError : option string
}.

Definition initial : State := {|
  selectedLoanId := "";
  loanLedgerData := None;
  isLoadingLedger := false;
  ledgerError := None
|}.

Inductive Cmd : Type :=
| setSelectedLoanId (v : string)
| setLoanLedgerData (v : option LedgerData)
| setIsLoadingLedger (v : bool)
| setLedgerError (v : option string)
| console_error (label : string) (err : Error).

Definition update (s : State) (c : Cmd) : State :=
  match c with
  | setSelectedLoanId v =>
      {| selectedLoanId := v; loanLedgerData := loanLedgerData s;
         isLoadingLedger := isLoadingLedger s; ledgerError := ledgerError s |}
  | setLoanLedgerData v =>
      {| selectedLoanId := selectedLoanId s; loanLedgerData := v;
         isLoadingLedger := isLoadingLedger s; ledgerError := ledgerError s |}
  | setIsLoadingLedger v =>
      {| selectedLoanId := selectedLoanId s;
         loanLedgerData := loanLedgerData s;
         isLoadingLedger := v; ledgerError := ledgerError s |}
  | setLedgerError v =>
      {| selectedLoanId := selectedLoanId s;
         loanLedgerData := loanLedgerData s;
         isLoadingLedger := isLoadingLedger s; ledgerError := v |}
  | console_error _ _ => s
  end.

Definition apply (cs : list Cmd) (s : State) : State := fold_left update cs s.

(** How an [axios.get] promise settles: axios itself rejects a response
    whose status is outside 2xx, with an error that carries the response.  A
    2xx response may have nothing for [response.data] (an empty body, or the
    JSON value null): [None]. *)
Inductive AxiosOutcome : Type :=
| axios_network_error (message : string)
| axios_status_error (status : nat) (message : string)
| axios_response (data : option LedgerData).

Definition Handler : Type := Async Cmd AxiosOutcome unit.

(** [await axios.get(url)], giving [response.data]. *)
Definition axios_get (url : string)
  : Async Cmd AxiosOutcome (option LedgerData) :=
  Await {| method := GET; url := url; body := None |}
    (fun o =>
       match o with
       | axios_network_error m => Throw (new_Error m None)
       | axios_status_error st m => Throw (new_Error m (Some st))
       | axios_response d => Return d
       end).

Definition dquote : string := String (ascii_of_nat 34) "".

(** The effect on the [loans] prop. *)
Definition loans_effect (loans : option (list Loan)) : Handler :=
  match loans with
  | Some (first :: _) => emit (setSelectedLoanId (loan_id first))
  | _ => emit (setSelectedLoanId "") ;; emit (setLoanLedgerData None)
  end.

(** [fetchLoanLedger], run by the effect on [selectedLoanId]. *)
Definition fetchLoanLedger (selectedLoanId : string) : Handler :=
  if negb (JS.truthy selectedLoanId) then
    emit (setLoanLedgerData None) ;;
    emit (setLedgerError None)
  else
    emit (setIsLoadingLedger true) ;;
    emit (setLedgerError None) ;;
    try_catch_finally
      (data <- axios_get (API_BASE_URL ++ "/loans/" ++ selectedLoanId
                          ++ "/ledger") ;;
       emit (setLoanLedgerData data))
      (fun err =>
         emit (console_error "Error fetching loan ledger:" err) ;;
         (if match err_response_status err with
             | Some st => (st =? 404)%nat
             | None => false
             end
          then
            emit (setLedgerError
                    (Some ("Loan ID " ++ dquote ++ selectedLoanId ++ dquote
                           ++ " not found or no ledger data available.")))
          else
            emit (setLedgerError
                    (Some ("Failed to fetch loan ledger: " ++ err_message err
                           ++ ". Please ensure backend is running."))));;
         emit (setLoanLedgerData None))
      (emit (setIsLoadingLedger false)).
End LoanLedger.

(* ===================================================================== *)
(** * The forms inside App *)
(* ===================================================================== *)

(** The function props a form called, in order. *)
Fixpoint payment_notifications (cs : list PaymentForm.Cmd) : list Callback :=
  match cs with
  | PaymentForm.call_prop f :: r => f :: payment_notifications r
  | _ :: r => payment_notifications r
  | [] => []
  end.

Fixpoint loan_notifications (cs : list LoanApplication.Cmd) : list Callback :=
  match cs with
  | LoanApplication.call_prop f :: r => f :: loan_notifications r
  | _ :: r => loan_notifications r
  | [] => []
  end.

(** Each call of a function prop reaches [App]. *)
Definition notify (fs : list Callback) (w : App.World) : App.World :=
  App.steps (map App.Invoke fs) w.

(** The world after [App] renders the payment form in state [s], the form is
    submitted, and its request settles with [o] (no other event between). *)
Definition payment_cycle (s : PaymentForm.State) (o : Outcome PaymentForm.PaymentBody)
           (w : App.World) : App.World :=
  let onPaymentRecorded :=
    prop_callback "onPaymentRecorded" (App.PaymentForm_props (App.state w)) in
  let (before, st) := run (PaymentForm.handleSubmit onPaymentRecorded s) in
  let (after, _) := settle st o in
  notify (payment_notifications (before ++ after)) w.

(** The same for the loan application form. *)
Definition loan_cycle (s : LoanApplication.State) (o : Outcome LoanApplication.LoanBody)
           (w : App.World) : App.World :=
  let onLoanCreated :=
    prop_callback "onLoanCreated" (App.LoanApplication_props (App.state w)) in
  let (before, st) := run (LoanApplication.handleSubmit onLoanCreated s) in
  let (after, _) := settle st o in
  notify (loan_notifications (before ++ after)) w.

(* ===================================================================== *)
(** * Vocabulary of the properties *)
(* ===================================================================== *)

Module Spec.
Import App.

(** What [fetchCustomerOverview] does once its request has settled. *)
Definition continuation (id : string) : Outcome OverviewBody -> Handler :=
  match snd (run (fetchCustomerOverview id)) with
  | Suspended _ k => k
  | _ => fun _ => Return tt
  end.

(** The message of the exception the [try] block raises for outcome [o],
    if it raises one. *)
Definition thrown (o : Outcome OverviewBody) : option string :=
  match o with
  | network_error m => Some m
  | responded r =>
      match content r with
      | json_throws m => Some m
      | json_value b =>
          if ok r then None
          else Some (JS.or_else (message b)
                       ("HTTP error! status: " ++ JS.of_nat (status r)))
      end
  end.

(** The text [setError] receives for an exception with message [m]. *)
Definition error_text (m : string) : string :=
  "Failed to load customer data: " ++ m ++ ". Please check the Customer ID.".



Definition sets_loading (c : Cmd) : bool :=
  match c with setIsLoading true => true | _ => false end.

Definition clears_loading (c : Cmd) : bool :=
  match c with setIsLoading false => true | _ => false end.


(** Each value differs from the one before it, starting from [current]. *)
Fixpoint real_changes (current : string) (values : list string) : Prop :=
  match values with
  | v :: rest => current <> v /\ real_changes v rest
  | [] => True
  end.

(** Commands that leave both identifiers alone, so that no effect re-runs
    after them. *)
Definition keeps_identifiers (c : Cmd) : bool :=
  match c with
  | setCustomerId _ | setDebouncedCustomerId _ => false
  | _ => true
  end.

(** The last of [values], or [current] when there is none. *)
Definition final (current : string) (values : list string) : string :=
  fold_left (fun _ v => v) values current.

(** Keystrokes, each followed by a pause. *)
Definition typing (burst : list (string * nat)) : list Event :=
  flat_map (fun p => [Change (fst p); Elapse (snd p)]) burst.

(** A handler [App] may start: it finishes at once, or suspends on an
    overview request with the continuation of [fetchCustomerOverview]. *)
Definition safe (h : Handler) : Prop :=
  (exists cs, run h = (cs, Fulfilled tt)) \/
  (exists cs id, JS.truthy id = true /\
     run h = (cs, Suspended (overview_request id) (continuation id))).

(** Invariant of the worlds reachable from [mount]: the ref points at every
    pending timer, request ids are fresh, every pending request resumes
    [fetchCustomerOverview], no rejection went unhandled, and an unmounted
    component has no timer pending. *)
Record wf (w : World) : Prop := {
  wf_timers : forall t, In t (timers w) ->
              debounceTimerRef w = Some (timer_id t) /\ timer_id t <> 0;
  wf_next_timer : next_timer_id w <> 0;
  wf_pending : forall p, In p (pending w) ->
               request_id p < next_request_id w /\
               exists id, JS.truthy id = true /\ resume p = continuation id;
  wf_unhandled : unhandled w = [];
  wf_unmounted : mounted w = false -> timers w = []
}.

Definition refresh (id : string) : Event := Invoke (fetchCustomerOverview_closure id).


End Spec.

Module PaymentProps.
Import PaymentForm.

Definition sets_loading (c : Cmd) : bool :=
  match c with setIsProcessingPayment true => true | _ => false end.

Definition clears_loading (c : Cmd) : bool :=
  match c with setIsProcessingPayment false => true | _ => false end.


End PaymentProps.

Module LedgerProps.
Import LoanLedger.

Definition sets_loading (c : Cmd) : bool :=
  match c with setIsLoadingLedger true => true | _ => false end.

Definition clears_loading (c : Cmd) : bool :=
  match c with setIsLoadingLedger false => true | _ => false end.


End LedgerProps.

(* ===================================================================== *)
(** * What App puts on screen, and the life of the ledger view *)
(* ===================================================================== *)

(** A request was answered with a 2xx status and a body that could be read. *)
Definition accepted {B} (o : Outcome B) : bool :=
  match o with
  | responded r => match content r with json_value _ => ok r | json_throws _ => false end
  | network_error _ => false
  end.

(** Every character is white space for [trim]. *)
Fixpoint all_white_space (s : string) : bool :=
  match s with
  | String c r => JS.is_white_space c && all_white_space r
  | EmptyString => true
  end.

(** Destructuring the [loans] prop. *)
Fixpoint prop_loan_list {L} (name : string) (props : Props L) : option (list L) :=
  match props with
  | (n, v) :: rest =>
      if n =? name
      then match v with prop_loans l => Some l | _ => None end
      else prop_loan_list name rest
  | [] => None
  end.

Module AppView.
Import App.

(** What the JSX of [App] can put below the header. *)
Inductive Element : Type :=
| error_message (text : string)
| loading_message
| CustomerOverview_element (loans : list Loan) (customerId customerName : string)
| enter_customer_id_message
| no_loans_message
| LoanApplication_element (props : Props Loan)
| PaymentForm_element (props : Props Loan)
| LoanLedger_element (props : Props Loan).

(** [error] as a condition: a non-empty string. *)
Definition error_shown (s : State) : bool :=
  match error s with
  | Some m => JS.truthy m
  | None => false
  end.

Definition LoanLedger_props (s : State) (loanId : string) : Props Loan :=
  [ ("loanId", prop_string loanId);
    ("loans", prop_loans (customerLoans s));
    ("customerId", prop_string (debouncedCustomerId s)) ].

Definition when (b : bool) (e : Element) : list Element := if b then [e] else [].

(** The children of [<main>], after the input, in source order. *)
Definition render (s : State) : list Element :=
  let home := currentView s =? "home" in
  let id := JS.truthy (debouncedCustomerId s) in
  let settled := negb (isLoading s) && negb (error_shown s) in
  (match error s with
   | Some m => when (JS.truthy m) (error_message m)
   | None => []
   end)
  ++ when (isLoading s) loading_message
  ++ when (home && id && settled)
       (CustomerOverview_element (customerLoans s) (debouncedCustomerId s)
          (customerName s))
  ++ when (home && negb id && settled) enter_customer_id_message
  ++ when (home && id && settled
           && match customerLoans s with [] => true | _ => false end)
       no_loans_message
  ++ when (currentView s =? "apply") (LoanApplication_element (LoanApplication_props s))
  ++ when (currentView s =? "repay") (PaymentForm_element (PaymentForm_props s))
  ++ match selectedLoanIdForLedger s with
     | Some loanId =>
         when ((currentView s =? "ledger") && JS.truthy loanId)
           (LoanLedger_element (LoanLedger_props s loanId))
     | None => []
     end.

(** [disabled] of the "Loan Ledger" navigation button. *)
Definition ledger_button_disabled (s : State) : bool :=
  match customerLoans s with
  | [] => true
  | _ => false
  end.

(** A click on the "Loan Ledger" navigation button: nothing when the button
    is disabled, [handleViewChange('ledger')] otherwise. *)
Definition press_ledger_button (w : World) : World :=
  if ledger_button_disabled (state w) then w
  else step w (Navigate "ledger").
End AppView.

Module LedgerLife.
Import LoanLedger.
Local Open Scope async_scope.

(** The ledger component with its requests in flight. *)
(** The request [axios.get] issues for the ledger of [loanId]. *)
Definition ledger_request (loanId : string) : Request :=
  {| method := GET;
     url := API_BASE_URL ++ "/loans/" ++ loanId ++ "/ledger";
     body := None |}.

Record World : Type := {
  state : State;
  pending : list (AxiosOutcome -> Handler);
  network : list Request;
  calls : list Cmd
}.

Definition exec (h : Handler) (w : World) : World :=
  let (cs, st) := run h in
  {| state := apply cs (state w);
     pending := match st with
                | Suspended _ k => pending w ++ [k]
                | _ => pending w
                end;
     network := match st with
                | Suspended r _ => network w ++ [r]
                | _ => network w
                end;
     calls := calls w ++ cs |}.

(** The effect on [selectedLoanId] after a re-render. *)
Definition rerender (before : State) (w : World) : World :=
  if selectedLoanId before =? selectedLoanId (state w) then w
  else exec (fetchLoanLedger (selectedLoanId (state w))) w.

(** First render with the props [App] passed: the component destructures
    [customerId] and [loans] only; both effects run with the initial state,
    then the re-render they caused runs the effect on [selectedLoanId]. *)
Definition mount (props : Props Loan) : World :=
  let w0 := {| state := initial; pending := []; network := []; calls := [] |} in
  let w1 := exec (loans_effect (prop_loan_list "loans" props)) w0 in
  let w2 := exec (fetchLoanLedger (selectedLoanId initial)) w1 in
  rerender initial w2.

(** [onChange] of the loan dropdown. *)
Definition select (loanId : string) (w : World) : World :=
  rerender (state w) (exec (emit (setSelectedLoanId loanId)) w).
End LedgerLife.

Module Reach.
Import App.

(** A request for the overview of a present identifier. *)
Definition overview_for_identifier (r : Request) : Prop :=
  exists id, JS.truthy id = true /\ r = overview_request id.

(** What was published is trimmed, what was requested is an overview of a
    present identifier. *)
Definition logs_ok (w : World) : Prop :=
  Forall (fun v => JS.trim v = v) (publications (calls w)) /\
  Forall overview_for_identifier (network w).

(** Commands that leave the raw input alone. *)
Definition keeps_raw_input (c : Cmd) : bool :=
  match c with
  | setCustomerId _ => false
  | _ => true
  end.

(** Commands that do not switch the loading flag on. *)
Definition leaves_loading_off (c : Cmd) : bool :=
  match c with
  | setIsLoading true => false
  | _ => true
  end.

(** At most one timer is pending; it holds the current raw input and fires
    within the debounce window. *)
Definition one_timer (w : World) : Prop :=
  length (timers w) <= 1 /\
  forall t, In t (timers w) ->
    captured_customerId t = customerId (state w) /\
    1 <= remaining t /\ remaining t <= 500.

(** The loading line shows only while a request is in flight. *)
Definition loading_means_pending (w : World) : Prop :=
  mounted w = true -> isLoading (state w) = true -> pending w <> [].
End Reach.

(* ===================================================================== *)
(** * The forms in the browser: constraint validation before onSubmit *)
(* ===================================================================== *)

Module Html.

(** An optional exponent ([e] or [E], an optional sign, digits), then the
    end of the string. *)
Definition exponent_ok (s : string) : bool :=
  match s with
  | EmptyString => true
  | String c r =>
      (Ascii.eqb c "e" || Ascii.eqb c "E") &&
      let r' := match r with
                | String "-" t => t
                | String "+" t => t
                | _ => r
                end in
      let (d, rest) := JS.span_digits r' in
      JS.truthy d && (rest =? "")
  end.

(** A valid floating-point number: an optional minus, digits with an
    optional fraction or a fraction alone, an optional exponent. *)
Definition valid_floating_point_number (s : string) : bool :=
  let body := match s with
              | String "-" r => r
              | _ => s
              end in
  let (int_part, r1) := JS.span_digits body in
  match r1 with
  | String "." r =>
      let (frac_part, r2) := JS.span_digits r in
      JS.truthy frac_part && exponent_ok r2
  | _ => JS.truthy int_part && exponent_ok r1
  end.

(** The value sanitization of [type="number"]: what is not a valid
    floating-point number becomes the empty string. *)
Definition sanitized (v : string) : string :=
  if valid_floating_point_number v then v else "".

(** The number the control holds, if it holds one. *)
Definition valueAsNumber (v : string) : option Q :=
  match JS.parseFloat (sanitized v) with
  | JS.Finite neg q => Some (if neg then - q else q)%Q
  | _ => None
  end.

(** A [required] [<input type="number">] with its [min], [max] and [step]
    attributes ([step] is 1 when the attribute is absent). *)
Record NumberInput : Type := {
  value : string;
  min : option Q;
  max : option Q;
  step : Q;
  disabled : bool
}.

(** The value is a whole number of steps away from the step base, which is
    [min] when there is one. *)
Definition on_step (v base step : Q) : bool :=
  Pos.eqb (Qden (Qred ((v - base) / step))) 1.

(** The control satisfies its constraints: a disabled control is barred from
    constraint validation; otherwise a value is present, not below [min],
    not above [max], and on a step. *)
Definition number_input_valid (i : NumberInput) : bool :=
  disabled i ||
  match valueAsNumber (value i) with
  | None => false
  | Some v =>
      match min i with Some m => Qle_bool m v | None => true end
      && match max i with Some m => Qle_bool v m | None => true end
      && on_step v (match min i with Some m => m | None => 0%Q end) (step i)
  end.

(** A [required] text input or [<select>]: its value is not empty. *)
Definition required_valid (disabled : bool) (value : string) : bool :=
  disabled || JS.truthy value.
End Html.

Module Forms.

(** What becomes of an attempt to submit a form (a click on its submit
    button, or Enter in one of its fields): the browser stops it, because
    the button is disabled or a control fails its constraints, or the submit
    event is delivered and [handleSubmit] runs. *)
Inductive Attempt (H : Type) : Type :=
| stopped
| delivered (h : H).
Arguments stopped {H}.
Arguments delivered {H} h.

Definition payment_amount_input (s : PaymentForm.State) : Html.NumberInput :=
  {| Html.value := PaymentForm.paymentAmount s;
     Html.min := Some (1 # 100)%Q;
     Html.max := None;
     Html.step := (1 # 100)%Q;
     Html.disabled := negb (JS.truthy (PaymentForm.selectedLoanId s)) |}.

(** The [<form onSubmit={handleSubmit}>] of the payment form delivers the
    submit event. *)
Definition payment_form_submits (loans : option (list Loan))
           (s : PaymentForm.State) : bool :=
  let no_loan := negb (JS.truthy (PaymentForm.selectedLoanId s)) in
  negb (PaymentForm.isProcessingPayment s || no_loan)
  && Html.required_valid
       (match loans with Some (_ :: _) => false | _ => true end)
       (PaymentForm.selectedLoanId s)
  && Html.number_input_valid (payment_amount_input s)
  && Html.required_valid no_loan (PaymentForm.paymentType s).

Definition payment_attempt (loans : option (list Loan))
           (onPaymentRecorded : option Callback) (s : PaymentForm.State)
  : Attempt PaymentForm.Handler :=
  if payment_form_submits loans s
  then delivered (PaymentForm.handleSubmit onPaymentRecorded s)
  else stopped.

Definition loan_amount_input (s : LoanApplication.State) : Html.NumberInput :=
  {| Html.value := LoanApplication.loanAmount s;
     Html.min := Some 1%Q;
     Html.max := None;
     Html.step := 1%Q;
     Html.disabled := false |}.

Definition interest_rate_input (s : LoanApplication.State) : Html.NumberInput :=
  {| Html.value := LoanApplication.interestRateYearly s;
     Html.min := Some 0%Q;
     Html.max := None;
     Html.step := (1 # 10)%Q;
     Html.disabled := false |}.

Definition loan_period_input (s : LoanApplication.State) : Html.NumberInput :=
  {| Html.value := LoanApplication.loanPeriodYears s;
     Html.min := Some 1%Q;
     Html.max := Some 30%Q;
     Html.step := 1%Q;
     Html.disabled := false |}.

(** The [<form onSubmit={handleSubmit}>] of the loan application form
    delivers the submit event. *)
Definition loan_form_submits (s : LoanApplication.State) : bool :=
  negb (LoanApplication.isSubmitting s)
  && Html.required_valid false (LoanApplication.customerId s)
  && Html.number_input_valid (loan_amount_input s)
  && Html.number_input_valid (interest_rate_input s)
  && Html.number_input_valid (loan_period_input s).

Definition loan_attempt (onLoanCreated : option Callback)
           (s : LoanApplication.State) : Attempt LoanApplication.Handler :=
  if loan_form_submits s
  then delivered (LoanApplication.handleSubmit onLoanCreated s)
  else stopped.




(** The attempt ends with a request in flight. *)
Definition issues_request {C O} (a : Attempt (Async C O unit)) : bool :=
  match a with
  | delivered h =>
      match snd (run h) with
      | Suspended _ _ => true
      | _ => false
      end
  | stopped => false
  end.


End Forms.

(* ===================================================================== *)
(** * Facts about the primitives and the handlers *)
(* ===================================================================== *)

Import App Spec.

Lemma run_debounce_timeout (v : string) :
  run (debounce_timeout v) =
  (if JS.truthy (JS.trim v) then [setDebouncedCustomerId (JS.trim v)]
   else [setDebouncedCustomerId ""; setCustomerLoans []; setCustomerName "";
         setError None],
   Fulfilled tt).
Proof. unfold debounce_timeout. destruct (JS.truthy (JS.trim v)); reflexivity. Qed.

Lemma run_fetch_empty (id : string) :
  JS.truthy id = false ->
  run (fetchCustomerOverview id) =
  ([setCustomerLoans []; setCustomerName ""], Fulfilled tt).
Proof. intros H. unfold fetchCustomerOverview. rewrite H. reflexivity. Qed.

Lemma run_fetch_truthy (id : string) :
  JS.truthy id = true ->
  run (fetchCustomerOverview id) =
  ([setIsLoading true; setError None],
   Suspended (overview_request id) (continuation id)).
Proof.
  intros H. unfold continuation, fetchCustomerOverview. rewrite H. reflexivity.
Qed.

(** Commands of [fetchCustomerOverview] after its request settled. *)
Lemma run_continuation (id : string) (o : Outcome OverviewBody) :
  JS.truthy id = true ->
  run (continuation id o) =
  (match thrown o with
   | Some m =>
       [console_error "Failed to fetch customer overview:" (new_Error m None);
        setError (Some (error_text m)); setCustomerLoans []; setCustomerName "";
        setIsLoading false]
   | None =>
       match o with
       | responded {| content := json_value data |} =>
           [setCustomerLoans (match loans data with Some l => l | None => [] end);
            setCustomerName (JS.or_else (customer_name data) ("Customer " ++ id));
            setIsLoading false]
       | _ => []
       end
   end, Fulfilled tt).
Proof.
  intros H. unfold continuation, fetchCustomerOverview. rewrite H.
  destruct o as [m | [st [m | b]]]; cbn.
  - reflexivity.
  - unfold ok; cbn. destruct (_ && _)%bool; reflexivity.
  - unfold ok; cbn. destruct (_ && _)%bool; reflexivity.
Qed.

Lemma publications_app (a b : list Cmd) :
  publications (a ++ b) = (publications a ++ publications b)%list.
Proof.
  induction a as [| c a IH]; [reflexivity |].
  destruct c; cbn; rewrite ?IH; reflexivity.
Qed.

Lemma apply_app (a b : list Cmd) (s : State) :
  apply (a ++ b) s = apply b (apply a s).
Proof. unfold apply. apply fold_left_app. Qed.

(** ** Every handler of [App] is safe *)

Lemma safe_fetchCustomerOverview (id : string) : safe (fetchCustomerOverview id).
Proof.
  destruct (JS.truthy id) eqn:H.
  - right. eexists _, id. split; [exact H | apply run_fetch_truthy, H].
  - left. eexists. apply run_fetch_empty, H.
Qed.

Lemma safe_continuation (id : string) (o : Outcome OverviewBody) :
  JS.truthy id = true -> safe (continuation id o).
Proof. intros H. left. eexists. apply run_continuation, H. Qed.

Lemma safe_debounce_timeout (v : string) : safe (debounce_timeout v).
Proof. left. eexists. apply run_debounce_timeout. Qed.

Lemma safe_emit (c : Cmd) : safe (emit c).
Proof. left. eexists. reflexivity. Qed.

Lemma safe_handleViewChange (v : string) : safe (handleViewChange v).
Proof. left. eexists. reflexivity. Qed.

Lemma safe_handleViewLedger (l : string) : safe (handleViewLedger l).
Proof. left. eexists. reflexivity. Qed.

Lemma safe_call (f : Callback) : safe (call f).
Proof. destruct f. apply safe_fetchCustomerOverview. Qed.

Create HintDb handlers.
#[local] Hint Resolve safe_fetchCustomerOverview safe_debounce_timeout safe_emit
  safe_handleViewChange safe_handleViewLedger safe_call : handlers.

(** ** What [exec] leaves alone *)

Lemma exec_timers (h : Handler) (w : World) :
  timers (exec h w) = timers w /\
  debounceTimerRef (exec h w) = debounceTimerRef w /\
  next_timer_id (exec h w) = next_timer_id w /\
  mounted (exec h w) = mounted w.
Proof. unfold exec. destruct (run h) as [cs st]. cbn. auto. Qed.

Lemma exec_calls (h : Handler) (w : World) :
  calls (exec h w) = (calls w ++ fst (run h))%list.
Proof. unfold exec. destruct (run h) as [cs st]. reflexivity. Qed.

Lemma exec_state (h : Handler) (w : World) :
  state (exec h w) = if mounted w then apply (fst (run h)) (state w) else state w.
Proof. unfold exec. destruct (run h) as [cs st]. reflexivity. Qed.

Lemma exec_fulfilled (h : Handler) (w : World) (cs : list Cmd) :
  run h = (cs, Fulfilled tt) ->
  pending (exec h w) = pending w /\
  next_request_id (exec h w) = next_request_id w /\
  network (exec h w) = network w /\
  unhandled (exec h w) = unhandled w.
Proof. intros H. unfold exec. rewrite H. cbn. auto. Qed.

Lemma exec_suspended (h : Handler) (w : World) cs r k :
  run h = (cs, Suspended r k) ->
  pending (exec h w) =
    (pending w ++ [{| request_id := next_request_id w; resume := k |}])%list /\
  next_request_id (exec h w) = S (next_request_id w) /\
  network (exec h w) = (network w ++ [r])%list /\
  unhandled (exec h w) = unhandled w.
Proof. intros H. unfold exec. rewrite H. cbn. auto. Qed.

Lemma exec_wf (h : Handler) (w : World) : safe h -> wf w -> wf (exec h w).
Proof.
  intros Hs [Ht Hn Hp Hu Hm].
  destruct (exec_timers h w) as (Et & Er & En & Em).
  destruct Hs as [[cs H] | (cs & id & Hid & H)].
  - destruct (exec_fulfilled h w cs H) as (Ep & Eq & _ & Eu).
    constructor.
    + rewrite Et, Er. exact Ht.
    + rewrite En. exact Hn.
    + rewrite Ep, Eq. exact Hp.
    + rewrite Eu. exact Hu.
    + rewrite Et, Em. exact Hm.
  - destruct (exec_suspended h w _ _ _ H) as (Ep & Eq & _ & Eu).
    constructor.
    + rewrite Et, Er. exact Ht.
    + rewrite En. exact Hn.
    + rewrite Ep, Eq. intros p Hin. apply in_app_or in Hin.
      destruct Hin as [Hin | [<- | []]].
      * destruct (Hp p Hin) as [Hlt Hex]. split; [lia | exact Hex].
      * cbn. split; [lia | eauto].
    + rewrite Eu. exact Hu.
    + rewrite Et, Em. exact Hm.
Qed.

(** ** Timers *)

Lemma clear_debounce_timer_timers (w : World) :
  wf w -> timers (clear_debounce_timer w) = [].
Proof.
  intros [Ht _ _ _ _]. unfold clear_debounce_timer.
  destruct (timers w) as [| t ts] eqn:E.
  - destruct (debounceTimerRef w) as [id |]; [| exact E].
    destruct (id =? 0)%nat; [exact E |]. cbn. rewrite E. reflexivity.
  - destruct (Ht t) as [Hr Hz]; [left; reflexivity |].
    rewrite Hr. destruct (Nat.eqb_spec (timer_id t) 0) as [? | _]; [contradiction |].
    cbn. rewrite E.
    assert (Hall : forall l, (forall x, In x l -> timer_id x = timer_id t) ->
                   filter (fun x => negb (timer_id x =? timer_id t)%nat) l = []).
    { induction l as [| x l IH]; intros Hl; [reflexivity |].
      cbn. rewrite (Hl x (or_introl eq_refl)), Nat.eqb_refl. cbn.
      apply IH. intros y Hy. apply Hl. right. exact Hy. }
    apply Hall. intros x Hx.
    destruct (Ht x) as [Hx' _]; [exact Hx |]. congruence.
Qed.

Lemma clear_debounce_timer_other (w : World) :
  state (clear_debounce_timer w) = state w /\
  mounted (clear_debounce_timer w) = mounted w /\
  pending (clear_debounce_timer w) = pending w /\
  next_request_id (clear_debounce_timer w) = next_request_id w /\
  calls (clear_debounce_timer w) = calls w /\
  network (clear_debounce_timer w) = network w /\
  unhandled (clear_debounce_timer w) = unhandled w /\
  next_timer_id (clear_debounce_timer w) = next_timer_id w /\
  debounceTimerRef (clear_debounce_timer w) = debounceTimerRef w.
Proof.
  unfold clear_debounce_timer.
  destruct (debounceTimerRef w) as [id |] eqn:E; [| rewrite E; repeat split].
  destruct (id =? 0)%nat; [rewrite E; repeat split |].
  cbn. rewrite E. repeat split.
Qed.

Lemma clear_debounce_timer_wf (w : World) : wf w -> wf (clear_debounce_timer w).
Proof.
  intros Hw. pose proof (clear_debounce_timer_timers w Hw) as Et.
  destruct (clear_debounce_timer_other w) as (_ & _ & Ep & Eq & _ & _ & Eu & En & _).
  destruct Hw as [Ht Hn Hp Hu Hm]. constructor.
  - rewrite Et. intros t [].
  - rewrite En. exact Hn.
  - rewrite Ep, Eq. exact Hp.
  - rewrite Eu. exact Hu.
  - intros _. exact Et.
Qed.

(** After the debounce effect ran, exactly one timer is pending: the new one. *)
Lemma debounce_effect_timers (v : string) (w : World) :
  wf w ->
  timers (debounce_effect v w) =
  [{| timer_id := next_timer_id w; remaining := 500; captured_customerId := v |}].
Proof.
  intros Hw. unfold debounce_effect. cbn.
  rewrite (clear_debounce_timer_timers w Hw).
  destruct (clear_debounce_timer_other w) as (_ & _ & _ & _ & _ & _ & _ & En & _).
  rewrite En. reflexivity.
Qed.

Lemma debounce_effect_other (v : string) (w : World) :
  state (debounce_effect v w) = state w /\
  mounted (debounce_effect v w) = mounted w /\
  pending (debounce_effect v w) = pending w /\
  next_request_id (debounce_effect v w) = next_request_id w /\
  calls (debounce_effect v w) = calls w /\
  network (debounce_effect v w) = network w /\
  unhandled (debounce_effect v w) = unhandled w.
Proof.
  unfold debounce_effect. cbn.
  destruct (clear_debounce_timer_other w) as (E1 & E2 & E3 & E4 & E5 & E6 & E7 & _).
  repeat split; assumption.
Qed.

Lemma debounce_effect_wf (v : string) (w : World) :
  mounted w = true -> wf w -> wf (debounce_effect v w).
Proof.
  intros Hon Hw. pose proof (debounce_effect_timers v w Hw) as Et.
  destruct (debounce_effect_other v w) as (_ & Em & Ep & Eq & _ & _ & Eu).
  assert (Hn : next_timer_id w <> 0) by apply Hw.
  constructor.
  - rewrite Et. intros t [<- | []]. cbn.
    destruct (clear_debounce_timer_other w) as (_ & _ & _ & _ & _ & _ & _ & En & _).
    rewrite En. split; [reflexivity | exact Hn].
  - cbn. discriminate.
  - rewrite Ep, Eq. apply Hw.
  - rewrite Eu. apply Hw.
  - rewrite Em, Hon. discriminate.
Qed.

(** ** The invariant holds in every reachable world *)

Lemma rerender_wf (before : State) (w : World) : wf w -> wf (rerender before w).
Proof.
  intros Hw. unfold rerender.
  destruct (mounted w) eqn:Hon; [| exact Hw]. cbn.
  set (w1 := if customerId before =? customerId (state w) then w
             else debounce_effect (customerId (state w)) (clear_debounce_timer w)).
  assert (H1 : wf w1).
  { subst w1. destruct (_ =? _); [exact Hw |].
    apply debounce_effect_wf; [| apply clear_debounce_timer_wf, Hw].
    destruct (clear_debounce_timer_other w) as (_ & Em & _). congruence. }
  clearbody w1.
  destruct (debouncedCustomerId before =? _); [exact H1 |].
  apply exec_wf; [apply safe_fetchCustomerOverview | exact H1].
Qed.

Lemma dispatch_wf (h : Handler) (w : World) : safe h -> wf w -> wf (dispatch h w).
Proof. intros Hs Hw. apply rerender_wf, exec_wf; assumption. Qed.

Lemma fire_wf (ts : list Timer) (w : World) :
  wf w ->
  wf (fold_left
        (fun w' t => dispatch (debounce_timeout (captured_customerId t)) w')
        ts w).
Proof.
  revert w. induction ts as [| t ts IH]; intros w Hw; [exact Hw |].
  cbn. apply IH, dispatch_wf; [apply safe_debounce_timeout | exact Hw].
Qed.

Lemma elapse_wf (ms : nat) (w : World) : wf w -> wf (elapse ms w).
Proof.
  intros Hw. unfold elapse. apply fire_wf.
  destruct Hw as [Ht Hn Hp Hu Hm]. constructor; cbn; try assumption.
  - intros t Hin. apply in_map_iff in Hin. destruct Hin as (t0 & <- & Hin).
    apply filter_In in Hin. cbn. apply Ht, Hin.
  - intros Hoff. rewrite (Hm Hoff). reflexivity.
Qed.

Lemma settle_request_wf (id : nat) (o : Outcome OverviewBody) (w : World) :
  wf w -> wf (settle_request id o w).
Proof.
  intros Hw. unfold settle_request.
  destruct (find _ (pending w)) as [p |] eqn:E; [| exact Hw].
  apply find_some in E. destruct E as [Hin _].
  destruct (wf_pending w Hw p Hin) as (_ & cid & Hcid & Hres).
  apply dispatch_wf.
  - rewrite Hres. apply safe_continuation, Hcid.
  - destruct Hw as [Ht Hn Hp Hu Hm]. constructor; cbn; try assumption.
    intros q Hq. apply filter_In in Hq. apply Hp, Hq.
Qed.

Lemma unmount_wf (w : World) : wf w -> wf (unmount w).
Proof.
  intros Hw. unfold unmount. destruct (mounted w); [| exact Hw].
  pose proof (clear_debounce_timer_timers w Hw) as Et.
  apply clear_debounce_timer_wf in Hw.
  destruct Hw as [Ht Hn Hp Hu Hm]. constructor; cbn; try assumption.
  intros _. exact Et.
Qed.

Lemma step_wf (w : World) (e : Event) : wf w -> wf (step w e).
Proof.
  intros Hw.
  destruct e; cbn [step]; try destruct (mounted w);
    auto using dispatch_wf, elapse_wf, settle_request_wf, unmount_wf with handlers.
Qed.

Lemma steps_wf (es : list Event) (w : World) : wf w -> wf (steps es w).
Proof.
  revert w. induction es as [| e es IH]; intros w Hw; [exact Hw |].
  cbn. apply IH, step_wf, Hw.
Qed.

Lemma steps_app (a b : list Event) (w : World) :
  steps (a ++ b) w = steps b (steps a w).
Proof. unfold steps. apply fold_left_app. Qed.

Lemma mount_wf : wf mount.
Proof.
  constructor; cbn.
  - intros t [<- | []]. cbn. split; [reflexivity | discriminate].
  - discriminate.
  - intros p [].
  - reflexivity.
  - discriminate.
Qed.

(** X16.  In every session no handler that [App] runs (timer callback,
    overview fetch and its continuation, navigation, a refresh called by a
    child) ends in a rejected promise: network failures, unreadable bodies
    and non-2xx answers are all caught inside [fetchCustomerOverview]. *)
Lemma no_unhandled_rejection (es : list Event) : unhandled (steps es mount) = [].
Proof. apply wf_unhandled, steps_wf, mount_wf. Qed.

(** ** Publications come from the debounce timer only *)

Lemma publications_fetch (id : string) :
  publications (fst (run (fetchCustomerOverview id))) = [].
Proof.
  destruct (JS.truthy id) eqn:H.
  - rewrite (run_fetch_truthy id H). reflexivity.
  - rewrite (run_fetch_empty id H). reflexivity.
Qed.

Lemma publications_continuation (id : string) (o : Outcome OverviewBody) :
  JS.truthy id = true -> publications (fst (run (continuation id o))) = [].
Proof.
  intros H. rewrite (run_continuation id o H). cbn.
  destruct (thrown o); [reflexivity |].
  destruct o as [m | [st [m | b]]]; reflexivity.
Qed.

Lemma dispatch_unmounted (h : Handler) (w : World) :
  mounted w = false -> dispatch h w = exec h w.
Proof.
  intros H. unfold dispatch, rerender.
  destruct (exec_timers h w) as (_ & _ & _ & Em). rewrite Em, H. reflexivity.
Qed.

Lemma step_unmounted (w : World) (e : Event) :
  wf w -> mounted w = false ->
  mounted (step w e) = false /\
  publications (calls (step w e)) = publications (calls w).
Proof.
  intros Hw Hoff.
  assert (Hexec : forall h w', mounted w' = false -> calls w' = calls w ->
            publications (fst (run h)) = [] ->
            mounted (dispatch h w') = false /\
            publications (calls (dispatch h w')) = publications (calls w)).
  { intros h w' Hoff' Hc Hp. rewrite (dispatch_unmounted h w' Hoff').
    destruct (exec_timers h w') as (_ & _ & _ & Em).
    rewrite Em, exec_calls, publications_app, Hp, Hc, app_nil_r. auto. }
  destruct e; cbn; rewrite ?Hoff; auto.
  - unfold elapse. rewrite (wf_unmounted w Hw Hoff). cbn. auto.
  - unfold settle_request.
    destruct (find _ (pending w)) as [p |] eqn:E; [| auto].
    apply find_some in E. destruct E as [Hin _].
    destruct (wf_pending w Hw p Hin) as (_ & cid & Hcid & Hres).
    apply Hexec; [exact Hoff | reflexivity |].
    rewrite Hres. apply publications_continuation, Hcid.
  - apply Hexec; [exact Hoff | reflexivity |].
    destruct f. apply publications_fetch.
  - unfold unmount. rewrite Hoff. auto.
Qed.

Lemma steps_unmounted (es : list Event) (w : World) :
  wf w -> mounted w = false ->
  publications (calls (steps es w)) = publications (calls w).
Proof.
  revert w. induction es as [| e es IH]; intros w Hw Hoff; [reflexivity |].
  cbn. destruct (step_unmounted w e Hw Hoff) as [Hoff' Hp].
  rewrite IH; [exact Hp | apply step_wf, Hw | exact Hoff'].
Qed.

Lemma unmount_facts (w : World) :
  wf w ->
  mounted (unmount w) = false /\ timers (unmount w) = [] /\
  calls (unmount w) = calls w.
Proof.
  intros Hw. unfold unmount. destruct (mounted w) eqn:Hon.
  - cbn. destruct (clear_debounce_timer_other w) as (_ & _ & _ & _ & Ec & _).
    rewrite (clear_debounce_timer_timers w Hw). auto.
  - rewrite Hon. rewrite (wf_unmounted w Hw Hon). auto.
Qed.

(* ===================================================================== *)
(** * C9: teardown cancels the pending debounce timer *)
(* ===================================================================== *)

(** C9.  In every world reachable from the first render, unmounting the
    component leaves no timer pending, and whatever happens afterwards
    (time passing, responses arriving, stale callbacks being called) adds no
    StableIdentifier publication. *)
Theorem unmount_cancels_pending_timer (before after : list Event) :
  let w := steps before mount in
  timers (step w Unmount) = [] /\
  publications (calls (steps after (step w Unmount))) = publications (calls w).
Proof.
  intros w. assert (Hw : wf w) by apply steps_wf, mount_wf.
  destruct (unmount_facts w Hw) as (Hoff & Ht & Hc). cbn [step].
  split; [exact Ht |].
  rewrite steps_unmounted; [rewrite Hc; reflexivity | apply unmount_wf, Hw | exact Hoff].
Qed.

(** The pending timer of a half-typed identifier never fires after teardown;
    without the teardown it publishes. *)
Example unmount_while_typing :
  publications (calls (steps [Change "CUST001"; Elapse 100; Unmount; Elapse 1000] mount)) = [] /\
  publications (calls (steps [Change "CUST001"; Elapse 100; Elapse 1000] mount)) = ["CUST001"].
Proof. split; reflexivity. Qed.

(* ===================================================================== *)
(** * The debounce timer, step by step *)
(* ===================================================================== *)

Lemma rerender_publications (before : State) (w : World) :
  publications (calls (rerender before w)) = publications (calls w).
Proof.
  unfold rerender. destruct (mounted w); [| reflexivity]. cbn.
  set (w1 := if customerId before =? customerId (state w) then w
             else debounce_effect (customerId (state w)) (clear_debounce_timer w)).
  assert (H1 : calls w1 = calls w).
  { subst w1. destruct (_ =? _); [reflexivity |].
    destruct (debounce_effect_other (customerId (state w)) (clear_debounce_timer w))
      as (_ & _ & _ & _ & Ec & _).
    destruct (clear_debounce_timer_other w) as (_ & _ & _ & _ & Ec' & _).
    congruence. }
  clearbody w1.
  destruct (debouncedCustomerId before =? _); [rewrite H1; reflexivity |].
  rewrite exec_calls, publications_app, publications_fetch, app_nil_r, H1.
  reflexivity.
Qed.

Lemma dispatch_publications (h : Handler) (w : World) :
  publications (calls (dispatch h w)) =
  (publications (calls w) ++ publications (fst (run h)))%list.
Proof.
  unfold dispatch. rewrite rerender_publications, exec_calls, publications_app.
  reflexivity.
Qed.

(** A keystroke that changes the raw input restarts the timer and publishes
    nothing; the identifier and the displayed data stay as they were. *)
Lemma change_restarts_timer (w : World) (v : string) :
  wf w -> mounted w = true -> customerId (state w) <> v ->
  let w' := step w (Change v) in
  mounted w' = true /\
  customerId (state w') = v /\
  timers w' = [{| timer_id := next_timer_id w; remaining := 500;
                  captured_customerId := v |}] /\
  calls w' = (calls w ++ [setCustomerId v])%list /\
  network w' = network w /\
  debouncedCustomerId (state w') = debouncedCustomerId (state w) /\
  customerLoans (state w') = customerLoans (state w) /\
  customerName (state w') = customerName (state w) /\
  error (state w') = error (state w) /\
  isLoading (state w') = isLoading (state w).
Proof.
  intros Hw Hon Hv. cbn. rewrite Hon.
  set (w0 := exec (emit (setCustomerId v)) w).
  assert (Hs0 : state w0 = update (state w) (setCustomerId v)).
  { subst w0. rewrite exec_state, Hon. reflexivity. }
  assert (Hw0 : wf w0) by (apply exec_wf; [apply safe_emit | exact Hw]).
  destruct (exec_timers (emit (setCustomerId v)) w) as (_ & _ & En0 & Em0).
  destruct (exec_fulfilled (emit (setCustomerId v)) w _ eq_refl) as (_ & _ & Enet0 & _).
  pose proof (exec_calls (emit (setCustomerId v)) w) as Ec0.
  fold w0 in En0, Em0, Enet0, Ec0.
  unfold dispatch, rerender. fold w0. rewrite Em0, Hon. cbn [negb].
  rewrite Hs0. cbn [customerId update debouncedCustomerId].
  apply String.eqb_neq in Hv. rewrite Hv.
  set (w1 := debounce_effect v (clear_debounce_timer w0)).
  assert (Hcw : wf (clear_debounce_timer w0)) by apply clear_debounce_timer_wf, Hw0.
  destruct (clear_debounce_timer_other w0) as (Cs & Cm & _ & _ & Cc & Cn & _ & Cnt & _).
  destruct (debounce_effect_other v (clear_debounce_timer w0)) as (Ds & Dm & _ & _ & Dc & Dn & _).
  pose proof (debounce_effect_timers v (clear_debounce_timer w0) Hcw) as Dt.
  fold w1 in Ds, Dm, Dc, Dn, Dt.
  assert (Hs1 : state w1 = update (state w) (setCustomerId v)) by congruence.
  rewrite Hs1. cbn [debouncedCustomerId update]. rewrite String.eqb_refl.
  rewrite Cnt, En0 in Dt. clearbody w1. clearbody w0.
  rewrite Hs1. cbn [customerId debouncedCustomerId customerLoans customerName
                      error isLoading update].
  cbn in Ec0.
  repeat split; congruence.
Qed.

(** Time passing short of the deadline only ages the timer. *)
Lemma elapse_waits (w : World) (t : Timer) (ms : nat) :
  timers w = [t] -> ms < remaining t ->
  elapse ms w =
  with_timers (debounceTimerRef w) [age ms t] (next_timer_id w) w.
Proof.
  intros Ht Hms. unfold elapse. rewrite Ht. cbn. unfold due.
  destruct (Nat.leb_spec (remaining t) ms) as [H | _]; [lia |]. reflexivity.
Qed.

(** At the deadline the callback of the one pending timer runs. *)
Lemma elapse_fires (w : World) (t : Timer) (ms : nat) :
  timers w = [t] -> remaining t <= ms ->
  elapse ms w =
  dispatch (debounce_timeout (captured_customerId t))
    (with_timers (debounceTimerRef w) [] (next_timer_id w) w).
Proof.
  intros Ht Hms. unfold elapse. rewrite Ht. cbn. unfold due.
  destruct (Nat.leb_spec (remaining t) ms) as [_ | H]; [| lia]. reflexivity.
Qed.

Lemma publications_debounce_timeout (v : string) :
  publications (fst (run (debounce_timeout v))) = [JS.trim v].
Proof.
  rewrite run_debounce_timeout. cbn.
  destruct (JS.truthy (JS.trim v)) eqn:H; [reflexivity |].
  unfold JS.truthy in H. apply negb_false_iff, String.eqb_eq in H.
  rewrite H. reflexivity.
Qed.

Lemma real_changes_app (current : string) (values : list string) (v : string) :
  real_changes current (values ++ [v]) ->
  real_changes current values /\ final current values <> v.
Proof.
  revert current. induction values as [| x values IH]; intros current H; cbn in *.
  - tauto.
  - destruct H as [Hx H]. destruct (IH x H) as [H1 H2]. auto.
Qed.

(** While keystrokes keep arriving inside the window, nothing is published. *)
Lemma typing_publishes_nothing (burst : list (string * nat)) (w : World) :
  wf w -> mounted w = true ->
  real_changes (customerId (state w)) (map fst burst) ->
  Forall (fun p => snd p < 500) burst ->
  let w1 := steps (typing burst) w in
  wf w1 /\ mounted w1 = true /\
  customerId (state w1) = final (customerId (state w)) (map fst burst) /\
  publications (calls w1) = publications (calls w).
Proof.
  revert w. induction burst as [| [v gap] burst IH]; intros w Hw Hon Hr Hg;
    cbv zeta in *.
  - cbn. auto.
  - cbn in Hr. destruct Hr as [Hv Hr]. inversion Hg as [| ? ? Hgap Hg']; subst.
    cbn in Hgap.
    destruct (change_restarts_timer w v Hw Hon Hv)
      as (Hon1 & Hc1 & Ht1 & Hcalls1 & _).
    set (w1 := step w (Change v)) in *.
    assert (Hw1 : wf w1) by apply step_wf, Hw.
    assert (E2 : step w1 (Elapse gap) =
                 with_timers (debounceTimerRef w1)
                   [age gap {| timer_id := next_timer_id w; remaining := 500;
                               captured_customerId := v |}]
                   (next_timer_id w1) w1).
    { cbn [step]. apply elapse_waits; [exact Ht1 | cbn; lia]. }
    assert (Hw2 : wf (step w1 (Elapse gap))) by apply step_wf, Hw1.
    change (steps (typing ((v, gap) :: burst)) w)
      with (steps (typing burst) (step w1 (Elapse gap))).
    rewrite E2 in Hw2 |- *.
    specialize (IH _ Hw2). cbn [mounted state with_timers calls] in IH.
    rewrite Hc1 in IH. specialize (IH Hon1 Hr Hg').
    destruct IH as (IH1 & IH2 & IH3 & IH4).
    split; [exact IH1 |]. split; [exact IH2 |]. split.
    + exact IH3.
    + rewrite IH4, Hcalls1, publications_app. cbn. apply app_nil_r.
Qed.

(** ** Re-rendering when no identifier changed *)

Lemma rerender_same (before : State) (w : World) :
  customerId before = customerId (state w) ->
  debouncedCustomerId before = debouncedCustomerId (state w) ->
  rerender before w = w.
Proof.
  intros H1 H2. unfold rerender. destruct (mounted w); [| reflexivity]. cbn.
  rewrite H1, String.eqb_refl, H2, String.eqb_refl. reflexivity.
Qed.

Lemma apply_keeps_identifiers (cs : list Cmd) (s : State) :
  forallb keeps_identifiers cs = true ->
  customerId (apply cs s) = customerId s /\
  debouncedCustomerId (apply cs s) = debouncedCustomerId s.
Proof.
  revert s. induction cs as [| c cs IH]; intros s H; [auto |].
  cbn in H. apply andb_true_iff in H. destruct H as [Hc H].
  change (apply (c :: cs) s) with (apply cs (update s c)).
  destruct (IH (update s c) H) as [E1 E2]. rewrite E1, E2.
  destruct c; try discriminate; auto.
Qed.

Lemma dispatch_keeps (h : Handler) (w : World) :
  forallb keeps_identifiers (fst (run h)) = true ->
  dispatch h w = exec h w.
Proof.
  intros H. unfold dispatch. apply rerender_same; rewrite exec_state;
    destruct (mounted w); try reflexivity;
    destruct (apply_keeps_identifiers (fst (run h)) (state w) H); congruence.
Qed.

Lemma fetch_keeps (id : string) :
  forallb keeps_identifiers (fst (run (fetchCustomerOverview id))) = true.
Proof.
  destruct (JS.truthy id) eqn:H.
  - rewrite (run_fetch_truthy id H). reflexivity.
  - rewrite (run_fetch_empty id H). reflexivity.
Qed.

Lemma continuation_keeps (id : string) (o : Outcome OverviewBody) :
  JS.truthy id = true ->
  forallb keeps_identifiers (fst (run (continuation id o))) = true.
Proof.
  intros H. rewrite (run_continuation id o H). cbn.
  destruct (thrown o); [reflexivity |].
  destruct o as [m | [st [m | b]]]; reflexivity.
Qed.

(** The timer callback for a blank input clears everything at once. *)
Lemma blank_timeout_clears (w : World) (v : string) :
  mounted w = true -> JS.trim v = "" ->
  let w' := dispatch (debounce_timeout v) w in
  debouncedCustomerId (state w') = "" /\ customerLoans (state w') = [] /\
  customerName (state w') = "" /\ error (state w') = None.
Proof.
  intros Hon Hv. cbv zeta. unfold dispatch.
  set (w0 := exec (debounce_timeout v) w).
  assert (Hs0 : state w0 =
                apply [setDebouncedCustomerId ""; setCustomerLoans [];
                       setCustomerName ""; setError None] (state w)).
  { subst w0. rewrite exec_state, Hon, run_debounce_timeout, Hv. reflexivity. }
  assert (Hm0 : mounted w0 = true).
  { subst w0. destruct (exec_timers (debounce_timeout v) w) as (_ & _ & _ & E).
    congruence. }
  clearbody w0. unfold rerender. rewrite Hm0. cbn [negb].
  replace (customerId (state w) =? customerId (state w0)) with true
    by (rewrite Hs0; cbn; symmetry; apply String.eqb_refl).
  destruct (debouncedCustomerId (state w) =? debouncedCustomerId (state w0)).
  - rewrite Hs0. cbn. auto.
  - rewrite exec_state, Hm0.
    replace (debouncedCustomerId (state w0)) with "" by (rewrite Hs0; reflexivity).
    rewrite (run_fetch_empty "" eq_refl), Hs0. cbn. auto.
Qed.

(* ===================================================================== *)
(** * C5: one publication per debounce window *)
(* ===================================================================== *)

(** C5.  In any reachable world with the component mounted, let the raw
    input change several times, each change less than 500 ms after the one
    before, and then stay at [v] for at least 500 ms.  Nothing is published
    while the changes keep arriving nor at the last change itself, and the
    quiet period publishes exactly once, the trimmed final value. *)
Theorem debounce_window (history : list Event) (burst : list (string * nat))
        (v : string) (d : nat) :
  mounted (steps history mount) = true ->
  real_changes (customerId (state (steps history mount))) (map fst burst ++ [v]) ->
  Forall (fun p => snd p < 500) burst ->
  500 <= d ->
  publications (calls (steps (typing burst) (steps history mount))) =
    publications (calls (steps history mount)) /\
  publications (calls (steps (typing burst ++ [Change v]) (steps history mount))) =
    publications (calls (steps history mount)) /\
  publications (calls (steps (typing burst ++ [Change v; Elapse d])
                         (steps history mount))) =
    (publications (calls (steps history mount)) ++ [JS.trim v])%list.
Proof.
  intros Hon Hr Hg Hd. set (w := steps history mount) in *.
  assert (Hw : wf w) by apply steps_wf, mount_wf.
  destruct (real_changes_app _ _ _ Hr) as [Hr1 Hv].
  destruct (typing_publishes_nothing burst w Hw Hon Hr1 Hg) as (Hw1 & Hon1 & Hc1 & Hp1).
  set (w1 := steps (typing burst) w) in *.
  rewrite <- Hc1 in Hv.
  destruct (change_restarts_timer w1 v Hw1 Hon1 Hv) as (Hon2 & _ & Ht2 & Hcalls2 & _).
  rewrite !steps_app. fold w1. cbn [steps fold_left].
  set (w2 := step w1 (Change v)) in *.
  assert (Hp2 : publications (calls w2) = publications (calls w)).
  { rewrite Hcalls2, publications_app, Hp1. cbn. apply app_nil_r. }
  split; [exact Hp1 |]. split; [exact Hp2 |].
  cbn [step]. rewrite (elapse_fires w2 _ d Ht2) by (cbn; lia).
  rewrite dispatch_publications. cbn [captured_customerId calls with_timers].
  rewrite publications_debounce_timeout, Hp2. reflexivity.
Qed.

(** The scenario of the spec: "A", "AB", "ABC" typed 100 ms apart. *)
Lemma debounce_window_witness :
  publications (calls (steps (typing [("A", 100); ("AB", 100)] ++ [Change "ABC"; Elapse 500])
                         (steps [] mount))) =
  (publications (calls (steps [] mount)) ++ [JS.trim "ABC"])%list.
Proof.
  apply (debounce_window [] [("A", 100); ("AB", 100)] "ABC" 500).
  - reflexivity.
  - cbn. repeat split; discriminate.
  - repeat constructor; cbn; lia.
  - lia.
Defined.

(* ===================================================================== *)
(** * C2: a blank input is cleared by the timer, not at the keystroke *)
(* ===================================================================== *)

(** C2, as stated, fails.  With the loans of CUST001 on display, blanking
    the input publishes nothing at that moment: the identifier, the loans and
    the name are still those of CUST001 right after the change and 499 ms
    later. *)
Lemma blank_input_not_immediate :
  let loan := {| loan_id := "L123"; principal := 100000; total_amount := 120000;
                 total_interest := 20000; emi_amount := 5000;
                 amount_paid := 0; emis_left := 24 |} in
  let shown :=
    steps [Change "CUST001"; Elapse 500;
           Settle 1 (responded {| status := 200;
                                  content := json_value
                                    {| message := None;
                                       customer_name := Some "Asha";
                                       loans := Some [loan] |} |})] mount in
  let blanked := step shown (Change "   ") in
  JS.trim "   " = "" /\
  publications (calls blanked) = publications (calls shown) /\
  debouncedCustomerId (state blanked) = "CUST001" /\
  customerLoans (state blanked) = [loan] /\
  customerName (state blanked) = "Asha" /\
  customerLoans (state (step blanked (Elapse 499))) = [loan] /\
  debouncedCustomerId (state (step blanked (Elapse 499))) <> "".
Proof. vm_compute. repeat split; intro H; discriminate H. Qed.

(** C2, amended.  A change of the raw input to a blank value publishes
    nothing and clears nothing at the keystroke, nor while less than 500 ms
    have passed; when the 500 ms have passed without another change, the
    empty identifier is published and, in that same step, the loans, the
    customer name and the error are cleared. *)
Theorem blank_input_clears_after_window (history : list Event) (v : string)
        (d : nat) :
  mounted (steps history mount) = true ->
  customerId (state (steps history mount)) <> v ->
  JS.trim v = "" ->
  let w := steps history mount in
  let unchanged w' :=
    publications (calls w') = publications (calls w) /\
    debouncedCustomerId (state w') = debouncedCustomerId (state w) /\
    customerLoans (state w') = customerLoans (state w) /\
    customerName (state w') = customerName (state w) /\
    error (state w') = error (state w) in
  unchanged (step w (Change v)) /\
  (d < 500 -> unchanged (steps [Change v; Elapse d] w)) /\
  (500 <= d ->
   let w' := steps [Change v; Elapse d] w in
   publications (calls w') = (publications (calls w) ++ [""])%list /\
   debouncedCustomerId (state w') = "" /\
   customerLoans (state w') = [] /\
   customerName (state w') = "" /\
   error (state w') = None).
Proof.
  intros Hon Hv Hblank w unchanged. subst unchanged. fold w in Hon, Hv.
  assert (Hw : wf w) by apply steps_wf, mount_wf.
  destruct (change_restarts_timer w v Hw Hon Hv)
    as (Hon1 & _ & Ht1 & Hcalls1 & _ & Hd1 & Hl1 & Hn1 & He1 & _).
  cbn [steps fold_left]. set (w1 := step w (Change v)) in *.
  assert (Hp1 : publications (calls w1) = publications (calls w)).
  { rewrite Hcalls1, publications_app. cbn. apply app_nil_r. }
  split; [auto 6 |]. split.
  - intros Hd. cbn [step]. rewrite (elapse_waits w1 _ d Ht1) by (cbn; lia).
    cbn [calls state with_timers]. auto 6.
  - intros Hd. cbn [step]. rewrite (elapse_fires w1 _ d Ht1) by (cbn; lia).
    cbn [captured_customerId]. split.
    + rewrite dispatch_publications, publications_debounce_timeout, Hblank.
      cbn [calls with_timers]. rewrite Hp1. reflexivity.
    + apply blank_timeout_clears; [exact Hon1 | exact Hblank].
Qed.

Lemma blank_input_clears_after_window_witness :
  let w' := steps [Change "   "; Elapse 500]
              (steps [Change "CUST001"; Elapse 500] mount) in
  publications (calls w') =
    (publications (calls (steps [Change "CUST001"; Elapse 500] mount)) ++ [""])%list /\
  debouncedCustomerId (state w') = "" /\
  customerLoans (state w') = [] /\
  customerName (state w') = "" /\
  error (state w') = None.
Proof.
  apply (blank_input_clears_after_window [Change "CUST001"; Elapse 500] "   " 500).
  - reflexivity.
  - discriminate.
  - reflexivity.
  - lia.
Defined.

(* ===================================================================== *)
(** * The coordinator, step by step *)
(* ===================================================================== *)

(** Calling [fetchCustomerOverview] never re-runs an effect. *)
Lemma refresh_step (w : World) (id : string) :
  step w (refresh id) = exec (fetchCustomerOverview id) w.
Proof. cbn. apply dispatch_keeps, fetch_keeps. Qed.

(** [refresh()] for a present identifier: loading is set, the error is
    cleared, one GET is issued and its continuation is left pending. *)
Lemma refresh_issues (w : World) (id : string) :
  mounted w = true -> JS.truthy id = true ->
  let w' := step w (refresh id) in
  state w' = apply [setIsLoading true; setError None] (state w) /\
  mounted w' = true /\
  pending w' = (pending w ++ [{| request_id := next_request_id w;
                                 resume := continuation id |}])%list /\
  next_request_id w' = S (next_request_id w) /\
  network w' = (network w ++ [overview_request id])%list.
Proof.
  intros Hon Hid. cbv zeta. rewrite refresh_step.
  destruct (exec_suspended _ w _ _ _ (run_fetch_truthy id Hid)) as (Ep & En & Enet & _).
  destruct (exec_timers (fetchCustomerOverview id) w) as (_ & _ & _ & Em).
  rewrite exec_state, Hon, (run_fetch_truthy id Hid). cbn [fst].
  repeat split; congruence.
Qed.

Lemma find_request (ps qs : list Pending) (p : Pending) :
  (forall q, In q ps -> request_id q <> request_id p) ->
  (forall q, In q qs -> request_id q <> request_id p) ->
  find (fun q => (request_id q =? request_id p)%nat) (ps ++ p :: qs) = Some p /\
  filter (fun q => negb (request_id q =? request_id p)%nat) (ps ++ p :: qs) =
    (ps ++ qs)%list.
Proof.
  intros Hps Hqs.
  assert (Hkeep : forall l, (forall q, In q l -> request_id q <> request_id p) ->
            filter (fun q => negb (request_id q =? request_id p)%nat) l = l).
  { induction l as [| x l IH]; intros Hl; [reflexivity |]. cbn.
    destruct (Nat.eqb_spec (request_id x) (request_id p)) as [E | _].
    - exfalso. apply (Hl x); [left; reflexivity | exact E].
    - cbn. f_equal. apply IH. intros q Hq. apply Hl. right. exact Hq. }
  induction ps as [| x ps IH].
  - cbn. rewrite Nat.eqb_refl. cbn. split; [reflexivity | apply Hkeep, Hqs].
  - cbn. destruct (Nat.eqb_spec (request_id x) (request_id p)) as [E | _].
    + exfalso. apply (Hps x); [left; reflexivity | exact E].
    + cbn. destruct IH as [IH1 IH2].
      * intros q Hq. apply Hps. right. exact Hq.
      * rewrite IH1, IH2. auto.
Qed.

(** The response to a pending overview request is applied as it arrives,
    whatever the state it finds. *)
Lemma settle_applies (w : World) (ps qs : list Pending) (rid : nat)
      (id : string) (o : Outcome OverviewBody) :
  mounted w = true -> JS.truthy id = true ->
  pending w = (ps ++ {| request_id := rid; resume := continuation id |} :: qs)%list ->
  (forall q, In q ps -> request_id q <> rid) ->
  (forall q, In q qs -> request_id q <> rid) ->
  let w' := step w (Settle rid o) in
  state w' = apply (fst (run (continuation id o))) (state w) /\
  mounted w' = true /\
  pending w' = (ps ++ qs)%list /\
  next_request_id w' = next_request_id w /\
  network w' = network w /\
  calls w' = (calls w ++ fst (run (continuation id o)))%list.
Proof.
  intros Hon Hid Hp Hps Hqs. cbv zeta. cbn [step]. unfold settle_request.
  destruct (find_request ps qs {| request_id := rid; resume := continuation id |}
              Hps Hqs) as [Hfind Hfilter].
  cbn [request_id] in Hfind, Hfilter. rewrite Hp, Hfind, Hfilter.
  cbn [resume].
  rewrite dispatch_keeps by (apply continuation_keeps, Hid).
  set (w0 := with_pending (ps ++ qs) w).
  destruct (exec_fulfilled _ w0 _ (run_continuation id o Hid)) as (Ep & En & Enet & _).
  destruct (exec_timers (continuation id o) w0) as (_ & _ & _ & Em).
  rewrite exec_state, exec_calls. subst w0. cbn [mounted with_pending state calls] in *.
  rewrite Hon. repeat split; try assumption; congruence.
Qed.

(* ===================================================================== *)
(** * C6: refresh() with an empty identifier *)
(* ===================================================================== *)

(** C6, as stated, fails.  CUST001 is published and its request is in flight
    when the input is blanked; the timer then publishes the empty identifier
    and the fetch effect runs [fetchCustomerOverview] for it.  That call, and
    any further call for the empty identifier, issues no request and clears
    loans and name, but the loading flag of the request in flight stays set:
    the state shown is Loading, not Idle.  And a closure of an earlier
    render, which captured CUST001, still issues its GET when it is called in
    this world, where the identifier is empty. *)
Lemma refresh_empty_while_loading :
  let w := steps [Change "CUST001"; Elapse 500; Change ""; Elapse 500] mount in
  let w' := step w (refresh (debouncedCustomerId (state w))) in
  debouncedCustomerId (state w) = "" /\
  network w' = network w /\
  customerLoans (state w') = [] /\ customerName (state w') = "" /\
  fetchState (state w) = Loading /\
  fetchState (state w') = Loading /\
  fetchState (state w') <> Idle /\
  network (step w (refresh "CUST001")) =
    (network w ++ [overview_request "CUST001"])%list.
Proof. vm_compute. repeat split; intro H; discriminate H. Qed.

(** C6, amended.  [fetchCustomerOverview] works on the identifier its closure
    captured.  Called through a closure that captured the empty identifier
    (the closure of every render in which the identifier is empty), in any
    world, it clears the loans and the customer name and returns without
    issuing a request; it leaves the loading flag and the error as they
    were, so the state shown afterwards is Idle when the identifier is empty,
    no earlier request is still loading and no error is set.  Called through
    a closure that captured a present identifier, it sets the loading flag
    and issues the GET for that identifier, whatever the identifier of the
    world it is called in. *)
Theorem refresh_with_empty_identifier (w : World) (id : string) :
  mounted w = true ->
  (JS.truthy id = false ->
   let w' := step w (refresh id) in
   customerLoans (state w') = [] /\
   customerName (state w') = "" /\
   network w' = network w /\
   pending w' = pending w /\
   isLoading (state w') = isLoading (state w) /\
   error (state w') = error (state w) /\
   (debouncedCustomerId (state w) = "" ->
    isLoading (state w) = false -> error (state w) = None ->
    fetchState (state w') = Idle)) /\
  (JS.truthy id = true ->
   let w' := step w (refresh id) in
   network w' = (network w ++ [overview_request id])%list /\
   isLoading (state w') = true /\
   debouncedCustomerId (state w') = debouncedCustomerId (state w)).
Proof.
  intros Hon. split; intros Hid; cbv zeta.
  - rewrite refresh_step.
    destruct (exec_fulfilled _ w _ (run_fetch_empty id Hid)) as (Ep & _ & Enet & _).
    rewrite exec_state, Hon, (run_fetch_empty id Hid). cbn [fst].
    repeat split; try assumption.
    intros Hd Hl He. unfold fetchState. cbn. rewrite Hl, He, Hd. reflexivity.
  - destruct (refresh_issues w id Hon Hid) as (Es & _ & _ & _ & Enet).
    cbv zeta in Es, Enet. rewrite Es, Enet. repeat split.
Qed.

Lemma refresh_with_empty_identifier_witness :
  let w := mount in
  let w' := step w (refresh "") in
  customerLoans (state w') = [] /\
  customerName (state w') = "" /\
  network w' = network w /\
  pending w' = pending w /\
  isLoading (state w') = isLoading (state w) /\
  error (state w') = error (state w) /\
  (debouncedCustomerId (state w) = "" ->
   isLoading (state w) = false -> error (state w) = None ->
   fetchState (state w') = Idle).
Proof.
  apply (proj1 (refresh_with_empty_identifier mount "" eq_refl)).
  reflexivity.
Defined.

(* ===================================================================== *)
(** * C4: a non-2xx overview response *)
(* ===================================================================== *)

(** C4, as stated, fails.  For a 404 whose body is
    [{message: "customer not found"}] the failure shown is not that message
    verbatim: the message is embedded in a fixed sentence. *)
Lemma not_found_message_is_wrapped :
  let w :=
    steps [Change "CUST404"; Elapse 500;
           Settle 1 (responded {| status := 404;
                                  content := json_value
                                    {| message := Some "customer not found";
                                       customer_name := None;
                                       loans := None |} |})] mount in
  fetchState (state w) =
    Failure "Failed to load customer data: customer not found. Please check the Customer ID." /\
  fetchState (state w) <> Failure "customer not found" /\
  customerLoans (state w) = [].
Proof. vm_compute. repeat split; intro H; discriminate H. Qed.

(** C4, amended.  When the response to an overview request has a status
    outside 2xx and a body that parses to an object, the handler completes
    without rejection and, whatever the state it finds, leaves Failure with
    the text "Failed to load customer data: M. Please check the Customer ID.",
    where M is the body's [message] when that is present and non-empty and
    "HTTP error! status: CODE" otherwise; loans and customer name are
    cleared. *)
Theorem overview_rejection_fails (id : string) (r : Response OverviewBody)
        (b : OverviewBody) (s : State) :
  JS.truthy id = true ->
  ok r = false ->
  content r = json_value b ->
  let m := match message b with
           | Some text => if JS.truthy text then text
                          else "HTTP error! status: " ++ JS.of_nat (status r)
           | None => "HTTP error! status: " ++ JS.of_nat (status r)
           end in
  let s' := apply (fst (run (continuation id (responded r)))) s in
  snd (run (continuation id (responded r))) = Fulfilled tt /\
  fetchState s' =
    Failure ("Failed to load customer data: " ++ m
             ++ ". Please check the Customer ID.") /\
  customerLoans s' = [] /\
  customerName s' = "".
Proof.
  intros Hid Hok Hc. cbv zeta.
  rewrite (run_continuation id (responded r) Hid).
  unfold thrown. rewrite Hc, Hok. cbn. auto.
Qed.

(** The 404 of the spec's scenario, arriving for CUST404. *)
Lemma overview_rejection_fails_witness :
  let r := {| status := 404;
              content := json_value {| message := Some "customer not found";
                                       customer_name := None;
                                       loans := None |} |} in
  let s' := apply (fst (run (continuation "CUST404" (responded r)))) initial in
  snd (run (continuation "CUST404" (responded r))) = Fulfilled tt /\
  fetchState s' =
    Failure "Failed to load customer data: customer not found. Please check the Customer ID." /\
  customerLoans s' = [] /\
  customerName s' = "".
Proof.
  apply (overview_rejection_fails "CUST404"
           {| status := 404;
              content := json_value {| message := Some "customer not found";
                                       customer_name := None;
                                       loans := None |} |}
           {| message := Some "customer not found"; customer_name := None;
              loans := None |} initial).
  - reflexivity.
  - reflexivity.
  - reflexivity.
Defined.

(** Without a usable [message] the text is synthesized from the status. *)
Example overview_rejection_generic :
  fetchState
    (apply (fst (run (continuation "CUST001"
                        (responded {| status := 500;
                                      content := json_value
                                        {| message := None;
                                           customer_name := None;
                                           loans := None |} |})))) initial) =
  Failure "Failed to load customer data: HTTP error! status: 500. Please check the Customer ID.".
Proof. reflexivity. Qed.

(** ** What a resolution writes *)

(** Loans and name after a resolution do not depend on the state it found. *)
Lemma resolution_overwrites (id : string) (o : Outcome OverviewBody) (s1 s2 : State) :
  JS.truthy id = true ->
  customerLoans (apply (fst (run (continuation id o))) s1) =
    customerLoans (apply (fst (run (continuation id o))) s2) /\
  customerName (apply (fst (run (continuation id o))) s1) =
    customerName (apply (fst (run (continuation id o))) s2).
Proof.
  intros H. rewrite (run_continuation id o H). cbn [fst].
  destruct (thrown o) eqn:E; [cbn; auto |].
  destruct o as [m | [st [m | b]]]; cbn in E |- *; try discriminate. auto.
Qed.

(** A failed resolution sets its own error and clears the data; a successful
    one leaves the error it found. *)
Lemma resolution_error (id : string) (o : Outcome OverviewBody) (s : State) :
  JS.truthy id = true ->
  let s' := apply (fst (run (continuation id o))) s in
  isLoading s' = false /\
  match thrown o with
  | Some m => error s' = Some (error_text m) /\
              customerLoans s' = [] /\ customerName s' = ""
  | None => error s' = error s
  end.
Proof.
  intros H. cbv zeta. rewrite (run_continuation id o H). cbn [fst].
  destruct (thrown o) eqn:E; [cbn; auto |].
  destruct o as [m | [st [m | b]]]; cbn in E |- *; try discriminate. auto.
Qed.

(** Two overlapping executions: the states after both responses arrived, in
    either order, as command lists applied to the state before. *)
Lemma overlapping_refreshes (w : World) (a b : string)
      (oa ob : Outcome OverviewBody) :
  wf w -> mounted w = true -> JS.truthy a = true -> JS.truthy b = true ->
  let issue := [setIsLoading true; setError None] in
  let ca := fst (run (continuation a oa)) in
  let cb := fst (run (continuation b ob)) in
  let ra := next_request_id w in
  let both := steps [refresh a; refresh b] w in
  state (steps [Settle (S ra) ob; Settle ra oa] both) =
    apply ca (apply cb (apply issue (apply issue (state w)))) /\
  state (steps [Settle ra oa; Settle (S ra) ob] both) =
    apply cb (apply ca (apply issue (apply issue (state w)))) /\
  state (steps [refresh a; Settle ra oa] w) = apply ca (apply issue (state w)) /\
  state (steps [refresh b; Settle ra ob] w) = apply cb (apply issue (state w)).
Proof.
  intros Hw Hon Ha Hb. cbv zeta. cbn [steps fold_left].
  assert (Hfresh : forall q, In q (pending w) -> request_id q < next_request_id w)
    by (intros q Hq; apply (wf_pending w Hw q Hq)).
  assert (Hne : forall n, next_request_id w <= n ->
                forall q, In q (pending w) -> request_id q <> n)
    by (intros n Hn q Hq; specialize (Hfresh q Hq); lia).
  destruct (refresh_issues w a Hon Ha) as (Sa & Ma & Pa & Na & _).
  destruct (refresh_issues w b Hon Hb) as (Sb' & Mb' & Pb' & Nb' & _).
  set (wa := step w (refresh a)) in *.
  set (wb' := step w (refresh b)) in *.
  destruct (refresh_issues wa b Ma Hb) as (Sb & Mb & Pb & Nb & _).
  set (wab := step wa (refresh b)) in *.
  rewrite Pa, Na in Pb. rewrite Sa in Sb.
  set (pa := {| request_id := next_request_id w; resume := continuation a |}) in *.
  set (pb := {| request_id := S (next_request_id w); resume := continuation b |}) in *.
  repeat split.
  - (* B's response first, A's last *)
    destruct (settle_applies wab (pending w ++ [pa]) [] (S (next_request_id w)) b ob
                Mb Hb Pb) as (S1 & M1 & P1 & _).
    { intros q Hq. apply in_app_or in Hq. destruct Hq as [Hq | [<- | []]].
      - apply (Hne _ (Nat.le_succ_diag_r _) q Hq).
      - cbn. lia. }
    { intros q []. }
    set (w1 := step wab (Settle (S (next_request_id w)) ob)) in *.
    rewrite app_nil_r in P1.
    destruct (settle_applies w1 (pending w) [] (next_request_id w) a oa M1 Ha P1)
      as (S2 & _).
    { apply Hne. lia. }
    { intros q []. }
    rewrite S2, S1, Sb. reflexivity.
  - (* A's response first, B's last *)
    rewrite <- app_assoc in Pb. cbn [app] in Pb.
    destruct (settle_applies wab (pending w) [pb] (next_request_id w) a oa Mb Ha Pb)
      as (S1 & M1 & P1 & _).
    { apply Hne. lia. }
    { intros q [<- | []]. cbn. lia. }
    set (w1 := step wab (Settle (next_request_id w) oa)) in *.
    destruct (settle_applies w1 (pending w) [] (S (next_request_id w)) b ob M1 Hb P1)
      as (S2 & _).
    { apply Hne. lia. }
    { intros q []. }
    rewrite S2, S1, Sb. reflexivity.
  - destruct (settle_applies wa (pending w) [] (next_request_id w) a oa Ma Ha Pa)
      as (S1 & _).
    { apply Hne. lia. }
    { intros q []. }
    rewrite S1, Sa. reflexivity.
  - destruct (settle_applies wb' (pending w) [] (next_request_id w) b ob Mb' Hb Pb')
      as (S1 & _).
    { apply Hne. lia. }
    { intros q []. }
    rewrite S1, Sb'. reflexivity.
Qed.

(* ===================================================================== *)
(** * C1: overlapping refreshes *)
(* ===================================================================== *)

(** C1, as stated, fails.  Identifier A is published and fetched, then B is
    published and fetched while A's request is still in flight.  B's response
    arrives first, A's last: with A succeeding the screen shows A's customer
    and loans under identifier B, with A failing it shows A's failure. *)
Lemma stale_response_overwrites :
  let loan id := {| loan_id := id; principal := 100000; total_amount := 120000;
                    total_interest := 20000; emi_amount := 5000;
                    amount_paid := 0; emis_left := 24 |} in
  let success name l :=
    responded {| status := 200;
                 content := json_value {| message := None;
                                          customer_name := Some name;
                                          loans := Some [l] |} |} in
  let issued := steps [Change "A"; Elapse 500; Change "B"; Elapse 500] mount in
  let b_then_a := steps [Settle 2 (success "Bob" (loan "LB"));
                         Settle 1 (success "Alice" (loan "LA"))] issued in
  let b_then_a_failing := steps [Settle 2 (success "Bob" (loan "LB"));
                                 Settle 1 (network_error "Failed to fetch")] issued in
  debouncedCustomerId (state issued) = "B" /\
  map url (network issued) =
    [API_BASE_URL ++ "/customers/A/overview"; API_BASE_URL ++ "/customers/B/overview"] /\
  fetchState (state b_then_a) = Success "Alice" [loan "LA"] /\
  fetchState (state b_then_a) <> Success "Bob" [loan "LB"] /\
  fetchState (state b_then_a_failing) =
    Failure "Failed to load customer data: Failed to fetch. Please check the Customer ID." /\
  fetchState (state b_then_a_failing) <> Success "Bob" [loan "LB"].
Proof. vm_compute. repeat split; intro H; discriminate H. Qed.

(** C1, amended.  There is no staleness guard: every execution applies its
    result when its response arrives.  For executions issued for A then B,
    with B issued before A's response arrives, the loans and the customer
    name shown after both responses arrived are those of the response that
    arrived last (what that execution alone would have shown), A's when A's
    arrives after B's, whether A succeeded or failed; the error shown is that
    of the last response if it failed, else that of the other one. *)
Theorem last_response_wins (history : list Event) (a b : string)
        (oa ob : Outcome OverviewBody) :
  mounted (steps history mount) = true ->
  JS.truthy a = true ->
  JS.truthy b = true ->
  let w := steps history mount in
  let ra := next_request_id w in
  let rb := S ra in
  let both := steps [refresh a; refresh b] w in
  let a_last := state (steps [Settle rb ob; Settle ra oa] both) in
  let b_last := state (steps [Settle ra oa; Settle rb ob] both) in
  let a_alone := state (steps [refresh a; Settle ra oa] w) in
  let b_alone := state (steps [refresh b; Settle ra ob] w) in
  let or_else first second :=
    match first with Some e => Some e | None => second end in
  (customerLoans a_last = customerLoans a_alone /\
   customerName a_last = customerName a_alone /\
   error a_last = or_else (error a_alone) (error b_alone)) /\
  (customerLoans b_last = customerLoans b_alone /\
   customerName b_last = customerName b_alone /\
   error b_last = or_else (error b_alone) (error a_alone)).
Proof.
  intros Hon Ha Hb. cbv zeta.
  assert (Hw : wf (steps history mount)) by apply steps_wf, mount_wf.
  destruct (overlapping_refreshes _ a b oa ob Hw Hon Ha Hb) as (E1 & E2 & E3 & E4).
  cbv zeta in E1, E2, E3, E4. rewrite E1, E2, E3, E4.
  set (s := state (steps history mount)).
  set (issue := [setIsLoading true; setError None]).
  assert (Hissue : forall s0, error (apply issue s0) = None) by reflexivity.
  assert (Hlast : forall x ox s1 s2 y oy, JS.truthy x = true -> JS.truthy y = true ->
            error s1 = None -> error s2 = None ->
            error (apply (fst (run (continuation x ox)))
                     (apply (fst (run (continuation y oy))) s1)) =
            match error (apply (fst (run (continuation x ox))) s2) with
            | Some e => Some e
            | None => error (apply (fst (run (continuation y oy))) s2)
            end).
  { intros x ox s1 s2 y oy Hx Hy H1 H2.
    destruct (resolution_error x ox (apply (fst (run (continuation y oy))) s1) Hx) as [_ X1].
    destruct (resolution_error x ox s2 Hx) as [_ X2].
    destruct (resolution_error y oy s1 Hy) as [_ Y1].
    destruct (resolution_error y oy s2 Hy) as [_ Y2].
    destruct (thrown ox).
    - destruct X1 as [X1 _], X2 as [X2 _]. rewrite X1, X2. reflexivity.
    - rewrite X1, X2, H2. destruct (thrown oy).
      + destruct Y1 as [Y1 _], Y2 as [Y2 _]. congruence.
      + congruence. }
  split; (split; [| split]).
  - apply resolution_overwrites, Ha.
  - apply resolution_overwrites, Ha.
  - apply Hlast; auto.
  - apply resolution_overwrites, Hb.
  - apply resolution_overwrites, Hb.
  - apply Hlast; auto.
Qed.

Lemma last_response_wins_witness :
  let oa := responded {| status := 200;
                         content := json_value {| message := None;
                                                  customer_name := Some "Alice";
                                                  loans := Some [] |} |} in
  let ob := network_error "Failed to fetch" in
  let w := steps [] mount in
  let both := steps [refresh "A"; refresh "B"] w in
  let a_last := state (steps [Settle 2 ob; Settle 1 oa] both) in
  let a_alone := state (steps [refresh "A"; Settle 1 oa] w) in
  let b_alone := state (steps [refresh "B"; Settle 1 ob] w) in
  customerLoans a_last = customerLoans a_alone /\
  customerName a_last = customerName a_alone /\
  error a_last = match error a_alone with
                 | Some e => Some e
                 | None => error b_alone
                 end.
Proof.
  apply (last_response_wins [] "A" "B"
           (responded {| status := 200;
                         content := json_value {| message := None;
                                                  customer_name := Some "Alice";
                                                  loans := Some [] |} |})
           (network_error "Failed to fetch")).
  - reflexivity.
  - reflexivity.
  - reflexivity.
Defined.

(* ===================================================================== *)
(** * C10: error and data after an execution *)
(* ===================================================================== *)












(* ===================================================================== *)
(** * C8: the loading indicator of a request cycle *)
(* ===================================================================== *)







(* ===================================================================== *)
(** * C3: the forms and the refresh trigger *)
(* ===================================================================== *)

(** A recorded payment calls [fetchCustomerOverview] once: one GET of the
    overview of the identifier on display is issued. *)
Lemma payment_success_refreshes_once (w : World) (s : PaymentForm.State)
      (r : Response PaymentForm.PaymentBody) (b : PaymentForm.PaymentBody) :
  mounted w = true ->
  JS.truthy (debouncedCustomerId (state w)) = true ->
  PaymentForm.invalid s = false ->
  ok r = true -> content r = json_value b ->
  network (payment_cycle s (responded r) w) =
    (network w ++ [overview_request (debouncedCustomerId (state w))])%list.
Proof.
  intros Hon Hid Hv Hok Hc. unfold payment_cycle, PaymentForm.handleSubmit.
  rewrite Hv. cbn. unfold json. rewrite Hc. cbn. rewrite Hok. cbn.
  fold (refresh (debouncedCustomerId (state w))).
  apply (refresh_issues w _ Hon Hid).
Qed.

(** C3, on the code.  [App] passes its refresh trigger to the loan
    application form under the attribute [onLoanApplied]; the form reads
    [onLoanCreated], which is therefore undefined.  Whatever the form holds
    and however its request settles, a created loan included, the form calls
    no function prop and [App] is left exactly as it was: no overview GET is
    issued. *)
Theorem loan_created_without_refresh :
  (forall st : State,
     prop_callback "onLoanCreated" (LoanApplication_props st) = None /\
     prop_callback "onLoanApplied" (LoanApplication_props st) =
       Some (fetchCustomerOverview_closure (debouncedCustomerId st))) /\
  (forall (s : LoanApplication.State) (o : Outcome LoanApplication.LoanBody)
          (w : World),
     loan_cycle s o w = w) /\
  let created :=
    responded {| status := 201;
                 content := json_value
                   {| LoanApplication.message := Some "Loan created successfully";
                      LoanApplication.data :=
                        Some {| LoanApplication.created_loan_id := "L124";
                                LoanApplication.created_customer_id := "CUST001";
                                LoanApplication.total_amount_payable := 60000;
                                LoanApplication.monthly_emi := 2500 |} |} |} in
  let form := {| LoanApplication.customerId := "CUST001";
                 LoanApplication.loanAmount := "50000";
                 LoanApplication.loanPeriodYears := "2";
                 LoanApplication.interestRateYearly := "10.0";
                 LoanApplication.submissionMessage := None;
                 LoanApplication.isSubmissionSuccess := None;
                 LoanApplication.isSubmitting := false |} in
  let w := steps [Change "CUST001"; Elapse 500; Navigate "apply"] mount in
  LoanApplication.invalid form = false /\
  LoanApplication.isSubmissionSuccess
    (LoanApplication.apply
       (fst (run (LoanApplication.handleSubmit None form)) ++
        fst (settle (snd (run (LoanApplication.handleSubmit None form))) created))
       form) = Some true /\
  network (loan_cycle form created w) = network w /\
  map url (network w) = [API_BASE_URL ++ "/customers/CUST001/overview"].
Proof.
  split; [| split].
  - intros st. split; reflexivity.
  - intros s o w. unfold loan_cycle.
    replace (prop_callback "onLoanCreated" (LoanApplication_props (state w)))
      with (@None Callback) by reflexivity.
    unfold LoanApplication.handleSubmit.
    destruct (LoanApplication.invalid s); [reflexivity |].
    destruct o as [m | [st [m | b]]]; cbn; try reflexivity.
    destruct (ok _); reflexivity.
  - vm_compute. repeat split.
Qed.

(** The same world with the payment form: the refresh is issued. *)
Example payment_recorded_refreshes :
  let recorded :=
    responded {| status := 201;
                 content := json_value
                   {| PaymentForm.message := Some "Payment recorded";
                      PaymentForm.payment_id := "P1";
                      PaymentForm.paid_loan_id := "L123";
                      PaymentForm.remaining_balance := 115000;
                      PaymentForm.emis_left_after := 23 |} |} in
  let form := {| PaymentForm.selectedLoanId := "L123";
                 PaymentForm.paymentAmount := "5000";
                 PaymentForm.paymentType := "EMI";
                 PaymentForm.responseFeedback := None;
                 PaymentForm.isPaymentSuccess := None;
                 PaymentForm.isProcessingPayment := false |} in
  let w := steps [Change "CUST001"; Elapse 500; Navigate "repay"] mount in
  map url (network (payment_cycle form recorded w)) =
    [API_BASE_URL ++ "/customers/CUST001/overview";
     API_BASE_URL ++ "/customers/CUST001/overview"].
Proof. vm_compute. reflexivity. Qed.

(* ===================================================================== *)
(** * C7: client-side validation *)
(* ===================================================================== *)



(** The checks catch what compares with zero: no loan selected, a zero or
    negative amount, no payment type; a blank customer id, a zero loan
    amount, a negative rate, a zero period. *)
Example checks_that_reject :
  let payment id amount type :=
    {| PaymentForm.selectedLoanId := id; PaymentForm.paymentAmount := amount;
       PaymentForm.paymentType := type; PaymentForm.responseFeedback := None;
       PaymentForm.isPaymentSuccess := None;
       PaymentForm.isProcessingPayment := false |} in
  let loan id amount years rate :=
    {| LoanApplication.customerId := id; LoanApplication.loanAmount := amount;
       LoanApplication.loanPeriodYears := years;
       LoanApplication.interestRateYearly := rate;
       LoanApplication.submissionMessage := None;
       LoanApplication.isSubmissionSuccess := None;
       LoanApplication.isSubmitting := false |} in
  PaymentForm.invalid (payment "" "5000" "EMI") = true /\
  PaymentForm.invalid (payment "L123" "0" "EMI") = true /\
  PaymentForm.invalid (payment "L123" "-5" "EMI") = true /\
  PaymentForm.invalid (payment "L123" "5000" "") = true /\
  PaymentForm.invalid (payment "L123" "5000" "EMI") = false /\
  LoanApplication.invalid (loan "   " "50000" "2" "10.0") = true /\
  LoanApplication.invalid (loan "CUST001" "0" "2" "10.0") = true /\
  LoanApplication.invalid (loan "CUST001" "50000" "2" "-1") = true /\
  LoanApplication.invalid (loan "CUST001" "50000" "0" "10.0") = true /\
  LoanApplication.invalid (loan "CUST001" "50000" "2" "10.0") = false.
Proof. vm_compute. repeat split. Qed.

(** The check itself compares the parsed values with zero.  For a value that
    does not parse, [NaN <= 0] is false and the check passes; the number
    fields of the forms never hold such a value when a submit event is
    delivered, as shown below. *)
Example check_passes_what_does_not_parse :
  let payment amount :=
    {| PaymentForm.selectedLoanId := "L123"; PaymentForm.paymentAmount := amount;
       PaymentForm.paymentType := "EMI"; PaymentForm.responseFeedback := None;
       PaymentForm.isPaymentSuccess := None;
       PaymentForm.isProcessingPayment := false |} in
  JS.parseFloat "" = JS.NaN /\ JS.le_zero JS.NaN = false /\
  PaymentForm.invalid (payment "") = false /\
  PaymentForm.invalid (payment "abc") = false /\
  Forms.payment_form_submits None (payment "") = false /\
  Forms.payment_form_submits None (payment "abc") = false.
Proof. vm_compute. repeat split. Qed.

(** The constraints of the number fields on samples. *)
Example number_input_samples :
  let amount v :=
    Html.number_input_valid
      {| Html.value := v; Html.min := Some (1 # 100)%Q; Html.max := None;
         Html.step := (1 # 100)%Q; Html.disabled := false |} in
  let years v :=
    Html.number_input_valid
      {| Html.value := v; Html.min := Some 1%Q; Html.max := Some 30%Q;
         Html.step := 1%Q; Html.disabled := false |} in
  amount "" = false /\ amount "abc" = false /\ amount "5abc" = false /\
  amount "0" = false /\ amount "-5" = false /\ amount "0.001" = false /\
  amount "5." = false /\ amount "+5" = false /\
  amount "0.01" = true /\ amount "5000" = true /\ amount "12.50" = true /\
  amount "1e3" = true /\ amount ".5" = true /\ amount "12.505" = false /\
  years "0" = false /\ years "31" = false /\ years "2.5" = false /\
  years "1" = true /\ years "30" = true.
Proof. vm_compute. repeat split. Qed.

(** Well-formed forms are delivered to [handleSubmit], which issues the
    request; so is a loan application whose customer id is white space
    only, which [handleSubmit] then rejects. *)
Example well_formed_submission_is_delivered :
  let loans :=
    Some [{| loan_id := "L123"; principal := 100000; total_amount := 120000;
             total_interest := 20000; emi_amount := 5000;
             amount_paid := 0; emis_left := 24 |}] in
  let payment :=
    {| PaymentForm.selectedLoanId := "L123"; PaymentForm.paymentAmount := "5000";
       PaymentForm.paymentType := "EMI"; PaymentForm.responseFeedback := None;
       PaymentForm.isPaymentSuccess := None;
       PaymentForm.isProcessingPayment := false |} in
  let loan id :=
    {| LoanApplication.customerId := id;
       LoanApplication.loanAmount := "50000";
       LoanApplication.loanPeriodYears := "2";
       LoanApplication.interestRateYearly := "10.0";
       LoanApplication.submissionMessage := None;
       LoanApplication.isSubmissionSuccess := None;
       LoanApplication.isSubmitting := false |} in
  Forms.payment_form_submits loans payment = true /\
  Forms.issues_request (Forms.payment_attempt loans None payment) = true /\
  Forms.loan_form_submits (loan "CUST001") = true /\
  Forms.issues_request (Forms.loan_attempt None (loan "CUST001")) = true /\
  Forms.loan_form_submits (loan "   ") = true /\
  Forms.issues_request (Forms.loan_attempt None (loan "   ")) = false /\
  Forms.loan_form_submits (loan "") = false.
Proof. vm_compute. repeat split. Qed.







(* ===================================================================== *)
(** * The primitives on samples *)
(* ===================================================================== *)

Example trim_cust001 : JS.trim "  CUST001  " = "CUST001".
Proof. reflexivity. Qed.

Example parseFloat_samples :
  JS.parseFloat "12.50" = JS.Finite false (1250 # 100)%Q /\
  JS.parseFloat "  -3e2x" = JS.Finite true (300 # 1)%Q /\
  JS.parseFloat ".5" = JS.Finite false (5 # 10)%Q /\
  JS.parseFloat "" = JS.NaN /\
  JS.parseFloat "abc" = JS.NaN /\
  JS.parseFloat "." = JS.NaN /\
  JS.parseFloat "5." = JS.Finite false (5 # 1)%Q /\
  JS.parseFloat "-Infinity" = JS.Infinity true /\
  JS.le_zero (JS.parseFloat "0.00") = true /\
  JS.le_zero (JS.parseFloat "-0") = true /\
  JS.le_zero (JS.parseFloat "1e-400") = true /\
  JS.le_zero (JS.parseFloat "0.01") = false /\
  JS.le_zero (JS.parseFloat "abc") = false /\
  JS.parseInt "10 years" = JS.Finite false (10 # 1)%Q /\
  JS.parseInt "x" = JS.NaN /\
  JS.of_nat 404 = "404" /\ JS.of_nat 0 = "0".
Proof. vm_compute. repeat split; reflexivity. Qed.

(** The padded identifier of the spec: trimmed, published once, fetched once. *)
Example padded_identifier :
  let w := steps [Change "  CUST001  "; Elapse 500] mount in
  publications (calls w) = ["CUST001"] /\
  network w = [{| method := GET;
                  url := API_BASE_URL ++ "/customers/CUST001/overview";
                  body := None |}] /\
  fetchState (state w) = Loading.
Proof. vm_compute. repeat split. Qed.

(* ===================================================================== *)
(** * Beyond the claims: trimming *)
(* ===================================================================== *)

Lemma append_empty_r (s : string) : s ++ "" = s.
Proof. induction s as [| c s IH]; cbn; [reflexivity | rewrite IH; reflexivity]. Qed.

Lemma append_assoc (a b c : string) : (a ++ b) ++ c = a ++ (b ++ c).
Proof. induction a as [| x a IH]; cbn; [reflexivity | rewrite IH; reflexivity]. Qed.

Lemma rev_onto_append (s acc : string) :
  JS.rev_onto s acc = JS.reverse s ++ acc.
Proof.
  unfold JS.reverse. revert acc.
  induction s as [| c s IH]; intros acc; cbn; [reflexivity |].
  rewrite (IH (String c acc)), (IH (String c "")), append_assoc. reflexivity.
Qed.

Lemma reverse_cons (c : ascii) (s : string) :
  JS.reverse (String c s) = JS.reverse s ++ String c "".
Proof. unfold JS.reverse at 1. cbn. apply rev_onto_append. Qed.

Lemma reverse_append (a b : string) :
  JS.reverse (a ++ b) = JS.reverse b ++ JS.reverse a.
Proof.
  induction a as [| c a IH].
  - cbn. symmetry. apply append_empty_r.
  - change (String c a ++ b) with (String c (a ++ b)).
    rewrite !reverse_cons, IH, append_assoc. reflexivity.
Qed.

Lemma reverse_involutive (s : string) : JS.reverse (JS.reverse s) = s.
Proof.
  induction s as [| c s IH]; [reflexivity |].
  rewrite reverse_cons, reverse_append, IH. reflexivity.
Qed.

Lemma all_white_space_append (a b : string) :
  all_white_space (a ++ b) = all_white_space a && all_white_space b.
Proof.
  induction a as [| c a IH]; cbn; [reflexivity |].
  rewrite IH, andb_assoc. reflexivity.
Qed.

Lemma all_white_space_reverse (s : string) :
  all_white_space (JS.reverse s) = all_white_space s.
Proof.
  induction s as [| c s IH]; [reflexivity |].
  rewrite reverse_cons, all_white_space_append, IH.
  cbn. rewrite andb_true_r. apply andb_comm.
Qed.

Lemma trimStart_empty_iff (s : string) :
  JS.trimStart s = "" <-> all_white_space s = true.
Proof.
  induction s as [| c s IH]; cbn; [tauto |].
  destruct (JS.is_white_space c); cbn; [exact IH |].
  split; discriminate.
Qed.

Lemma trimStart_all_white_space (s : string) :
  all_white_space (JS.trimStart s) = true -> all_white_space s = true.
Proof.
  induction s as [| c s IH]; cbn; [auto |].
  destruct (JS.is_white_space c) eqn:E; cbn; [exact IH |].
  rewrite E. cbn. auto.
Qed.

Lemma reverse_empty (s : string) : JS.reverse s = "" -> s = "".
Proof.
  intros H. rewrite <- (reverse_involutive s), H. reflexivity.
Qed.

Lemma trim_empty_iff (s : string) :
  JS.trim s = "" <-> all_white_space s = true.
Proof.
  unfold JS.trim, JS.trimEnd. split.
  - intros H. apply reverse_empty, trimStart_empty_iff in H.
    rewrite all_white_space_reverse in H. apply trimStart_all_white_space, H.
  - intros H. apply trimStart_empty_iff in H. rewrite H. reflexivity.
Qed.

(** A string is clean at the start when it is empty or begins with something
    other than white space. *)
Lemma trimStart_fixed (s : string) :
  JS.trimStart (JS.trimStart s) = JS.trimStart s.
Proof.
  induction s as [| c s IH]; [reflexivity |]. cbn.
  destruct (JS.is_white_space c) eqn:E; [exact IH |]. cbn. rewrite E. reflexivity.
Qed.

Lemma trimStart_keeps_last (u : string) (c : ascii) :
  JS.is_white_space c = false ->
  JS.trimStart (u ++ String c "") = JS.trimStart u ++ String c "".
Proof.
  intros Hc. induction u as [| d u IH]; cbn.
  - rewrite Hc. reflexivity.
  - destruct (JS.is_white_space d); [exact IH | reflexivity].
Qed.

(** Trimming the end of a string that is clean at the start leaves it clean
    at the start. *)
Lemma trimEnd_keeps_clean_start (x : string) :
  JS.trimStart x = x -> JS.trimStart (JS.trimEnd x) = JS.trimEnd x.
Proof.
  intros Hx. destruct x as [| c r]; [reflexivity |].
  cbn in Hx. destruct (JS.is_white_space c) eqn:Hc.
  - (* a clean string cannot begin with white space *)
    exfalso.
    assert (Hlen : forall s, String.length (JS.trimStart s) <= String.length s).
    { induction s as [| d s IH]; cbn; [lia |].
      destruct (JS.is_white_space d); cbn; lia. }
    specialize (Hlen r). rewrite Hx in Hlen. cbn in Hlen. lia.
  - unfold JS.trimEnd.
    rewrite reverse_cons, (trimStart_keeps_last _ c Hc), reverse_append.
    cbn. rewrite Hc. reflexivity.
Qed.

Lemma trim_fixed (s : string) : JS.trim (JS.trim s) = JS.trim s.
Proof.
  unfold JS.trim.
  rewrite (trimEnd_keeps_clean_start (JS.trimStart s) (trimStart_fixed s)).
  unfold JS.trimEnd at 1.
  unfold JS.trimEnd at 1. rewrite reverse_involutive, trimStart_fixed.
  reflexivity.
Qed.

(** X1.  The timer callback treats the raw input as empty exactly when every
    character of it is white space: then it publishes the empty identifier
    and clears loans, name and error; otherwise it publishes the non-empty
    trimmed input and touches nothing else. *)
Theorem blank_exactly_when_all_white_space (v : string) :
  (all_white_space v = true ->
   fst (run (debounce_timeout v)) =
     [setDebouncedCustomerId ""; setCustomerLoans []; setCustomerName "";
      setError None]) /\
  (all_white_space v = false ->
   fst (run (debounce_timeout v)) = [setDebouncedCustomerId (JS.trim v)] /\
   JS.trim v <> "").
Proof.
  rewrite run_debounce_timeout. cbn [fst]. unfold JS.truthy. split; intros H.
  - apply trim_empty_iff in H. rewrite H. reflexivity.
  - assert (Hne : JS.trim v <> "").
    { intros E. apply trim_empty_iff in E. congruence. }
    apply String.eqb_neq in Hne. rewrite Hne. cbn. split; [reflexivity |].
    apply String.eqb_neq, Hne.
Qed.

Lemma blank_exactly_when_all_white_space_witness :
  fst (run (debounce_timeout "  CUST001 ")) =
    [setDebouncedCustomerId (JS.trim "  CUST001 ")] /\
  JS.trim "  CUST001 " <> "".
Proof.
  apply (blank_exactly_when_all_white_space "  CUST001 "). reflexivity.
Defined.

(* ===================================================================== *)
(** * Beyond the claims: what the logs of a session contain *)
(* ===================================================================== *)

Import Reach.

Lemma exec_logs_ok (h : Handler) (w : World) :
  safe h -> Forall (fun v => JS.trim v = v) (publications (fst (run h))) ->
  logs_ok w -> logs_ok (exec h w).
Proof.
  intros Hs Hp [Hc Hn]. split.
  - rewrite exec_calls, publications_app. apply Forall_app. auto.
  - destruct Hs as [[cs H] | (cs & id & Hid & H)].
    + destruct (exec_fulfilled h w cs H) as (_ & _ & E & _). rewrite E. exact Hn.
    + destruct (exec_suspended h w _ _ _ H) as (_ & _ & E & _). rewrite E.
      apply Forall_app. split; [exact Hn |]. constructor; [| constructor].
      exists id. auto.
Qed.

Lemma fetch_logs_ok (id : string) (w : World) :
  logs_ok w -> logs_ok (exec (fetchCustomerOverview id) w).
Proof.
  apply exec_logs_ok; [apply safe_fetchCustomerOverview |].
  rewrite publications_fetch. constructor.
Qed.

Lemma rerender_logs_ok (before : State) (w : World) :
  logs_ok w -> logs_ok (rerender before w).
Proof.
  intros Hw. unfold rerender. destruct (mounted w); [| exact Hw]. cbn [negb].
  set (w1 := if customerId before =? customerId (state w) then w
             else debounce_effect (customerId (state w)) (clear_debounce_timer w)).
  assert (H1 : logs_ok w1).
  { subst w1. destruct (_ =? _); [exact Hw |].
    destruct (debounce_effect_other (customerId (state w)) (clear_debounce_timer w))
      as (_ & _ & _ & _ & Ec & En & _).
    destruct (clear_debounce_timer_other w) as (_ & _ & _ & _ & Ec' & En' & _).
    unfold logs_ok. rewrite Ec, En, Ec', En'. exact Hw. }
  clearbody w1.
  destruct (debouncedCustomerId before =? _); [exact H1 | apply fetch_logs_ok, H1].
Qed.

Lemma dispatch_logs_ok (h : Handler) (w : World) :
  safe h -> Forall (fun v => JS.trim v = v) (publications (fst (run h))) ->
  logs_ok w -> logs_ok (dispatch h w).
Proof. intros Hs Hp Hw. apply rerender_logs_ok, exec_logs_ok; assumption. Qed.

Lemma step_logs_ok (w : World) (e : Event) : wf w -> logs_ok w -> logs_ok (step w e).
Proof.
  intros Hwf Hw. destruct e; cbn [step].
  - destruct (mounted w); [| exact Hw].
    apply dispatch_logs_ok; [apply safe_emit | constructor | exact Hw].
  - unfold elapse.
    set (w0 := with_timers _ _ _ w).
    assert (H0 : logs_ok w0) by exact Hw. clearbody w0.
    induction (filter (due ms) (timers w)) as [| t ts IH] in w0, H0 |- *;
      [exact H0 |].
    cbn. apply IH, dispatch_logs_ok; [apply safe_debounce_timeout | | exact H0].
    rewrite publications_debounce_timeout. constructor; [apply trim_fixed | constructor].
  - unfold settle_request.
    destruct (find _ (pending w)) as [p |] eqn:E; [| exact Hw].
    apply find_some in E. destruct E as [Hin _].
    destruct (wf_pending w Hwf p Hin) as (_ & cid & Hcid & Hres).
    rewrite Hres. apply dispatch_logs_ok.
    + apply safe_continuation, Hcid.
    + rewrite (publications_continuation cid o Hcid). constructor.
    + exact Hw.
  - destruct (mounted w); [| exact Hw].
    apply dispatch_logs_ok; [apply safe_handleViewChange | constructor | exact Hw].
  - destruct (mounted w); [| exact Hw].
    apply dispatch_logs_ok; [apply safe_handleViewLedger | constructor | exact Hw].
  - apply dispatch_logs_ok; [apply safe_call | | exact Hw].
    destruct f. cbn [call]. rewrite publications_fetch. constructor.
  - unfold unmount. destruct (mounted w); [| exact Hw].
    destruct (clear_debounce_timer_other w) as (_ & _ & _ & _ & Ec & En & _).
    unfold logs_ok. cbn. rewrite Ec, En. exact Hw.
Qed.

Lemma steps_logs_ok (es : list Event) (w : World) :
  wf w -> logs_ok w -> logs_ok (steps es w).
Proof.
  revert w. induction es as [| e es IH]; intros w Hwf Hw; [exact Hw |].
  cbn. apply IH; [apply step_wf, Hwf | apply step_logs_ok; assumption].
Qed.

Lemma mount_logs_ok : logs_ok mount.
Proof. split; cbn; constructor. Qed.

(** X2.  Whatever the user types and whenever, every identifier the resolver
    ever publishes is a fixed point of [trim]: it carries no white space at
    either end. *)
Theorem published_identifiers_are_trimmed (history : list Event) :
  Forall (fun v => JS.trim v = v) (publications (calls (steps history mount))).
Proof. apply (steps_logs_ok history mount mount_wf mount_logs_ok). Qed.

(** X3.  Every request [App] ever issues, through the debounced identifier or
    through a refresh called by a child, is a GET of
    [/customers/ID/overview] for a non-empty ID: the early return of
    [fetchCustomerOverview] keeps the empty identifier off the network. *)
Theorem only_overviews_of_present_identifiers (history : list Event) :
  Forall (fun r => exists id, JS.truthy id = true /\
                     r = {| method := GET;
                            url := API_BASE_URL ++ "/customers/" ++ id ++ "/overview";
                            body := None |})
         (network (steps history mount)).
Proof. apply (steps_logs_ok history mount mount_wf mount_logs_ok). Qed.

(* ===================================================================== *)
(** * Beyond the claims: the timer and the loading flag in every session *)
(* ===================================================================== *)

Lemma apply_keeps_raw_input (cs : list Cmd) (s : State) :
  forallb keeps_raw_input cs = true -> customerId (apply cs s) = customerId s.
Proof.
  revert s. induction cs as [| c cs IH]; intros s H; [reflexivity |].
  cbn in H. apply andb_true_iff in H. destruct H as [Hc H].
  change (apply (c :: cs) s) with (apply cs (update s c)).
  rewrite (IH _ H). destruct c; try discriminate; reflexivity.
Qed.

Lemma apply_leaves_loading_off (cs : list Cmd) (s : State) :
  forallb leaves_loading_off cs = true ->
  isLoading (apply cs s) = true -> isLoading s = true.
Proof.
  revert s. induction cs as [| c cs IH]; intros s H Hl; [exact Hl |].
  cbn in H. apply andb_true_iff in H. destruct H as [Hc H].
  change (apply (c :: cs) s) with (apply cs (update s c)) in Hl.
  specialize (IH _ H Hl). destruct c; try exact IH.
  destruct v; [discriminate | cbn in IH; discriminate].
Qed.

Lemma keeps_identifiers_raw (cs : list Cmd) :
  forallb keeps_identifiers cs = true -> forallb keeps_raw_input cs = true.
Proof.
  induction cs as [| c cs IH]; [reflexivity |]. cbn. intros H.
  apply andb_true_iff in H. destruct H as [Hc H]. rewrite (IH H), andb_true_r.
  destruct c; try reflexivity; discriminate.
Qed.

(** What a re-render can change: nothing of the timers when the raw input is
    the same; only the fetch effect may add a pending request. *)
Lemma rerender_same_raw (before : State) (w : World) :
  customerId before = customerId (state w) ->
  let w' := rerender before w in
  timers w' = timers w /\ mounted w' = mounted w /\
  customerId (state w') = customerId (state w) /\
  (w' = w \/
   w' = exec (fetchCustomerOverview (debouncedCustomerId (state w))) w).
Proof.
  intros Hc. cbv zeta. unfold rerender. destruct (mounted w) eqn:Hon; [| auto].
  cbn [negb]. rewrite Hc, String.eqb_refl.
  destruct (debouncedCustomerId before =? _); [auto |].
  destruct (exec_timers (fetchCustomerOverview (debouncedCustomerId (state w))) w)
    as (Et & _ & _ & Em).
  rewrite exec_state, Hon.
  destruct (apply_keeps_identifiers _ (state w)
              (fetch_keeps (debouncedCustomerId (state w)))) as [Ec _].
  repeat split; try congruence. auto.
Qed.

Lemma dispatch_same_raw (h : Handler) (w : World) :
  forallb keeps_raw_input (fst (run h)) = true ->
  let w' := dispatch h w in
  timers w' = timers w /\ mounted w' = mounted w /\
  customerId (state w') = customerId (state w).
Proof.
  intros Hk. cbv zeta. unfold dispatch.
  destruct (exec_timers h w) as (Et & _ & _ & Em).
  assert (Hc : customerId (state w) = customerId (state (exec h w))).
  { rewrite exec_state. destruct (mounted w); [| reflexivity].
    symmetry. apply apply_keeps_raw_input, Hk. }
  destruct (rerender_same_raw (state w) (exec h w) Hc) as (Rt & Rm & Rc & _).
  repeat split; congruence.
Qed.

(** The state a keystroke leaves, whether or not it changed the input. *)
Lemma change_state (w : World) (v : string) :
  mounted w = true ->
  let w' := step w (Change v) in
  state w' = update (state w) (setCustomerId v) /\
  pending w' = pending w /\ mounted w' = true.
Proof.
  intros Hon. cbv zeta. cbn [step]. rewrite Hon. unfold dispatch.
  set (w0 := exec (emit (setCustomerId v)) w).
  assert (Hs0 : state w0 = update (state w) (setCustomerId v))
    by (subst w0; rewrite exec_state, Hon; reflexivity).
  destruct (exec_timers (emit (setCustomerId v)) w) as (_ & _ & _ & Em0).
  destruct (exec_fulfilled (emit (setCustomerId v)) w _ eq_refl) as (Ep0 & _).
  fold w0 in Em0, Ep0. clearbody w0.
  unfold rerender. rewrite Em0, Hon. cbn [negb].
  set (w1 := if customerId (state w) =? customerId (state w0) then w0
             else debounce_effect (customerId (state w0)) (clear_debounce_timer w0)).
  assert (H1 : state w1 = state w0 /\ pending w1 = pending w0 /\ mounted w1 = mounted w0).
  { subst w1. destruct (_ =? _); [auto |].
    destruct (debounce_effect_other (customerId (state w0)) (clear_debounce_timer w0))
      as (Ds & Dm & Dp & _).
    destruct (clear_debounce_timer_other w0) as (Cs & Cm & Cp & _).
    repeat split; congruence. }
  clearbody w1. destruct H1 as (S1 & P1 & M1).
  rewrite S1, Hs0. cbn [debouncedCustomerId update]. rewrite String.eqb_refl.
  rewrite S1, Hs0. repeat split; congruence.
Qed.

Lemma step_one_timer (w : World) (e : Event) :
  wf w -> one_timer w -> one_timer (step w e).
Proof.
  intros Hwf [Hlen Ht].
  assert (Hsame : forall h, forallb keeps_raw_input (fst (run h)) = true ->
                            one_timer (dispatch h w)).
  { intros h Hk. destruct (dispatch_same_raw h w Hk) as (E1 & _ & E2).
    unfold one_timer. rewrite E1, E2. auto. }
  destruct e; cbn [step].
  - (* a keystroke *)
    destruct (mounted w) eqn:Hon; [| split; assumption].
    destruct (String.eqb_spec (customerId (state w)) value) as [Heq | Hne].
    + destruct (change_state w value Hon) as (Hs & _). cbn [step] in Hs.
      rewrite Hon in Hs.
      assert (Hc : customerId (state w) =
                   customerId (state (exec (emit (setCustomerId value)) w))).
      { rewrite exec_state, Hon. cbn. exact Heq. }
      destruct (rerender_same_raw (state w) _ Hc) as (Rt & _ & Rc & _).
      destruct (exec_timers (emit (setCustomerId value)) w) as (Et & _).
      unfold one_timer, dispatch. rewrite Rt, Rc, Et, <- Hc. auto.
    + destruct (change_restarts_timer w value Hwf Hon Hne) as (_ & Hc & Htm & _).
      cbn [step] in Hc, Htm. rewrite Hon in Hc, Htm.
      unfold one_timer. rewrite Htm, Hc. split; [cbn; lia |].
      intros t [<- | []]. cbn. repeat split; lia.
  - (* time passes *)
    unfold elapse.
    set (w0 := with_timers _ _ _ w).
    assert (H0 : one_timer w0).
    { subst w0. unfold one_timer. cbn [timers state with_timers]. split.
      - rewrite length_map. etransitivity; [apply filter_length_le | exact Hlen].
      - intros t Hin. apply in_map_iff in Hin. destruct Hin as (t0 & <- & Hin).
        apply filter_In in Hin. destruct Hin as [Hin Hdue].
        destruct (Ht t0 Hin) as (Hc & Hlo & Hhi). unfold due in Hdue.
        apply negb_true_iff, Nat.leb_gt in Hdue. cbn. repeat split; [exact Hc | lia | lia]. }
    clearbody w0.
    induction (filter (due ms) (timers w)) as [| t ts IH] in w0, H0 |- *;
      [exact H0 |].
    cbn. apply IH.
    assert (Hk : forallb keeps_raw_input
                   (fst (run (debounce_timeout (captured_customerId t)))) = true).
    { rewrite run_debounce_timeout. destruct (JS.truthy _); reflexivity. }
    destruct (dispatch_same_raw _ w0 Hk) as (E1 & _ & E2).
    unfold one_timer. rewrite E1, E2. exact H0.
  - (* a response arrives *)
    unfold settle_request.
    destruct (find _ (pending w)) as [p |] eqn:E; [| split; assumption].
    apply find_some in E. destruct E as [Hin _].
    destruct (wf_pending w Hwf p Hin) as (_ & cid & Hcid & Hres).
    rewrite Hres.
    destruct (dispatch_same_raw (continuation cid o)
                (with_pending
                   (filter (fun p0 => negb (request_id p0 =? id)%nat) (pending w)) w))
      as (E1 & _ & E2).
    { apply keeps_identifiers_raw, continuation_keeps, Hcid. }
    unfold one_timer. rewrite E1, E2. cbn. auto.
  - destruct (mounted w); [apply Hsame; reflexivity | split; assumption].
  - destruct (mounted w); [apply Hsame; reflexivity | split; assumption].
  - apply Hsame. destruct f. apply keeps_identifiers_raw, fetch_keeps.
  - destruct (unmount_facts w Hwf) as (_ & Et & _).
    unfold one_timer. rewrite Et. split; [cbn; lia | intros t []].
Qed.

Lemma steps_one_timer (es : list Event) (w : World) :
  wf w -> one_timer w -> one_timer (steps es w).
Proof.
  revert w. induction es as [| e es IH]; intros w Hwf Hw; [exact Hw |].
  cbn. apply IH; [apply step_wf, Hwf | apply step_one_timer; assumption].
Qed.

(** X4.  In every session at most one debounce timer is pending, and a
    pending timer always holds the raw input as it currently stands and has
    between 1 and 500 ms left: the value a firing timer trims and publishes
    is the input the user sees in the field. *)
Theorem one_timer_with_current_input (history : list Event) :
  length (timers (steps history mount)) <= 1 /\
  forall t, In t (timers (steps history mount)) ->
    captured_customerId t = customerId (state (steps history mount)) /\
    1 <= remaining t /\ remaining t <= 500.
Proof.
  apply (steps_one_timer history mount mount_wf).
  split; [cbn; lia |]. intros t [<- | []]. cbn. repeat split; lia.
Qed.

Lemma rerender_mounted (before : State) (w : World) :
  mounted (rerender before w) = mounted w.
Proof.
  unfold rerender. destruct (mounted w) eqn:Hon; [| exact Hon]. cbn [negb].
  set (w1 := if customerId before =? customerId (state w) then w
             else debounce_effect (customerId (state w)) (clear_debounce_timer w)).
  assert (H1 : mounted w1 = true).
  { subst w1. destruct (_ =? _); [exact Hon |].
    destruct (debounce_effect_other (customerId (state w)) (clear_debounce_timer w))
      as (_ & Dm & _).
    destruct (clear_debounce_timer_other w) as (_ & Cm & _). congruence. }
  clearbody w1. destruct (debouncedCustomerId before =? _); [exact H1 |].
  destruct (exec_timers (fetchCustomerOverview (debouncedCustomerId (state w1))) w1)
    as (_ & _ & _ & Em). congruence.
Qed.

Lemma dispatch_mounted (h : Handler) (w : World) :
  mounted (dispatch h w) = mounted w.
Proof.
  unfold dispatch. rewrite rerender_mounted.
  destruct (exec_timers h w) as (_ & _ & _ & Em). exact Em.
Qed.

(** A handler that finishes at once, keeps the raw input and does not switch
    the loading flag on keeps the loading line honest. *)
Lemma dispatch_loading (h : Handler) (w : World) (cs : list Cmd) :
  run h = (cs, Fulfilled tt) ->
  forallb keeps_raw_input cs = true ->
  forallb leaves_loading_off cs = true ->
  loading_means_pending w -> loading_means_pending (dispatch h w).
Proof.
  intros Hrun Hk Hl Hw. unfold loading_means_pending.
  rewrite dispatch_mounted. intros Hon.
  unfold dispatch.
  set (w0 := exec h w).
  assert (Hs0 : state w0 = apply cs (state w))
    by (subst w0; rewrite exec_state, Hon, Hrun; reflexivity).
  destruct (exec_fulfilled h w cs Hrun) as (Ep0 & _).
  destruct (exec_timers h w) as (_ & _ & _ & Em0). fold w0 in Ep0, Em0.
  assert (H0 : isLoading (state w0) = true -> pending w0 <> []).
  { rewrite Hs0, Ep0. intros H. apply Hw; [exact Hon |].
    apply (apply_leaves_loading_off cs _ Hl H). }
  assert (Hc : customerId (state w) = customerId (state w0))
    by (rewrite Hs0; symmetry; apply apply_keeps_raw_input, Hk).
  clearbody w0.
  destruct (rerender_same_raw (state w) w0 Hc) as (_ & _ & _ & [-> | ->]);
    [exact H0 |].
  set (id := debouncedCustomerId (state w0)).
  destruct (JS.truthy id) eqn:Hid.
  - intros _.
    destruct (exec_suspended _ w0 _ _ _ (run_fetch_truthy id Hid)) as (Ep & _).
    rewrite Ep. intros E. apply app_eq_nil in E. destruct E as [_ E]. discriminate.
  - destruct (exec_fulfilled _ w0 _ (run_fetch_empty id Hid)) as (Ep & _).
    rewrite Ep, exec_state, Em0, Hon, (run_fetch_empty id Hid). exact H0.
Qed.

Lemma step_mounted (w : World) (e : Event) :
  mounted (step w e) = true -> mounted w = true.
Proof.
  destruct e; cbn [step].
  - destruct (mounted w) eqn:Hon; intros H; [reflexivity | congruence].
  - unfold elapse. set (w0 := with_timers _ _ _ w).
    assert (H0 : mounted w0 = mounted w) by reflexivity. clearbody w0.
    induction (filter (due ms) (timers w)) as [| t ts IH] in w0, H0 |- *;
      [cbn; congruence |].
    cbn. apply IH. rewrite dispatch_mounted. exact H0.
  - unfold settle_request. destruct (find _ (pending w)); [| auto].
    rewrite dispatch_mounted. auto.
  - destruct (mounted w) eqn:Hon; intros H; [reflexivity | congruence].
  - destruct (mounted w) eqn:Hon; intros H; [reflexivity | congruence].
  - rewrite dispatch_mounted. auto.
  - unfold unmount. destruct (mounted w) eqn:Hon; intros H;
      [reflexivity | congruence].
Qed.

Lemma step_loading (w : World) (e : Event) :
  wf w -> loading_means_pending w -> loading_means_pending (step w e).
Proof.
  intros Hwf Hw. destruct e; cbn [step].
  - destruct (mounted w) eqn:Hon; [| exact Hw].
    destruct (change_state w value Hon) as (Hs & Hp & _).
    cbn [step] in Hs, Hp. rewrite Hon in Hs, Hp.
    unfold loading_means_pending. rewrite Hs, Hp. intros _. apply Hw, Hon.
  - unfold elapse. set (w0 := with_timers _ _ _ w).
    assert (H0 : loading_means_pending w0) by exact Hw. clearbody w0.
    induction (filter (due ms) (timers w)) as [| t ts IH] in w0, H0 |- *;
      [exact H0 |].
    cbn. apply IH.
    apply (dispatch_loading _ w0 _ (run_debounce_timeout _));
      [destruct (JS.truthy _); reflexivity .. | exact H0].
  - unfold settle_request.
    destruct (find _ (pending w)) as [p |] eqn:E; [| exact Hw].
    apply find_some in E. destruct E as [Hin _].
    destruct (wf_pending w Hwf p Hin) as (_ & cid & Hcid & Hres).
    rewrite Hres, dispatch_keeps by (apply continuation_keeps, Hcid).
    unfold loading_means_pending.
    destruct (exec_timers (continuation cid o)
                (with_pending
                   (filter (fun p0 => negb (request_id p0 =? id)%nat) (pending w)) w))
      as (_ & _ & _ & Em).
    rewrite Em, exec_state. cbn [mounted with_pending state]. intros Hon.
    rewrite Hon.
    destruct (resolution_error cid o (state w) Hcid) as [Hoff _].
    cbv zeta in Hoff. rewrite Hoff. discriminate.
  - destruct (mounted w); [| exact Hw].
    apply (dispatch_loading (handleViewChange view) w _ eq_refl);
      [reflexivity .. | exact Hw].
  - destruct (mounted w); [| exact Hw].
    apply (dispatch_loading (handleViewLedger loanId) w _ eq_refl);
      [reflexivity .. | exact Hw].
  - destruct f as [id]. cbn [call]. rewrite dispatch_keeps by apply fetch_keeps.
    destruct (JS.truthy id) eqn:Hid.
    + intros _ _.
      destruct (exec_suspended _ w _ _ _ (run_fetch_truthy id Hid)) as (Ep & _).
      rewrite Ep. intros E. apply app_eq_nil in E. destruct E as [_ E]. discriminate.
    + unfold loading_means_pending.
      destruct (exec_fulfilled _ w _ (run_fetch_empty id Hid)) as (Ep & _).
      destruct (exec_timers (fetchCustomerOverview id) w) as (_ & _ & _ & Em).
      rewrite Ep, Em, exec_state. intros Hon. rewrite Hon, (run_fetch_empty id Hid).
      apply Hw, Hon.
  - intros Hon. pose proof (step_mounted w Unmount Hon) as Hon'.
    unfold unmount in Hon. rewrite Hon' in Hon. cbn in Hon. discriminate.
Qed.

Lemma steps_loading (es : list Event) (w : World) :
  wf w -> loading_means_pending w -> loading_means_pending (steps es w).
Proof.
  revert w. induction es as [| e es IH]; intros w Hwf Hw; [exact Hw |].
  cbn. apply IH; [apply step_wf, Hwf | apply step_loading; assumption].
Qed.

(** X5.  In every session, while the component is mounted, the loading line
    is on only if an overview request is still in flight: once every
    response has arrived the indicator is off, whatever the order of
    keystrokes, timers, navigation, refreshes and responses. *)
Theorem loading_only_while_in_flight (history : list Event) :
  mounted (steps history mount) = true ->
  isLoading (state (steps history mount)) = true ->
  pending (steps history mount) <> [].
Proof.
  apply (steps_loading history mount mount_wf). intros _ H. discriminate H.
Qed.

Lemma loading_only_while_in_flight_witness :
  pending (steps [Change "CUST001"; Elapse 500] mount) <> [].
Proof.
  apply (loading_only_while_in_flight [Change "CUST001"; Elapse 500]).
  - reflexivity.
  - reflexivity.
Defined.

(** The converse fails: with two requests in flight the first response
    switches the indicator off while the second is still awaited. *)
Example loading_off_while_in_flight :
  let w := steps [Change "A"; Elapse 500; Change "B"; Elapse 500;
                  Settle 1 (network_error "Failed to fetch")] mount in
  isLoading (state w) = false /\ length (pending w) = 1.
Proof. vm_compute. split; reflexivity. Qed.

(* ===================================================================== *)
(** * Beyond the claims: what a quiet period triggers *)
(* ===================================================================== *)

(** A handler that finishes at once and keeps both identifiers issues no
    request id. *)
Lemma dispatch_keeps_request_id (h : Handler) (w : World) (cs : list Cmd) :
  run h = (cs, Fulfilled tt) ->
  debouncedCustomerId (apply cs (state w)) = debouncedCustomerId (state w) ->
  next_request_id (dispatch h w) = next_request_id w.
Proof.
  intros Hrun Hd. unfold dispatch.
  destruct (exec_fulfilled h w cs Hrun) as (_ & En & _).
  destruct (exec_timers h w) as (_ & _ & _ & Em).
  set (w0 := exec h w) in *.
  assert (Hd0 : debouncedCustomerId (state w) = debouncedCustomerId (state w0)).
  { subst w0. rewrite exec_state, Hrun. destruct (mounted w); [symmetry; exact Hd | reflexivity]. }
  clearbody w0. unfold rerender. destruct (mounted w0); [| exact En]. cbn [negb].
  set (w1 := if customerId (state w) =? customerId (state w0) then w0
             else debounce_effect (customerId (state w0)) (clear_debounce_timer w0)).
  assert (H1 : state w1 = state w0 /\ next_request_id w1 = next_request_id w0).
  { subst w1. destruct (_ =? _); [auto |].
    destruct (debounce_effect_other (customerId (state w0)) (clear_debounce_timer w0))
      as (Ds & _ & _ & Dn & _).
    destruct (clear_debounce_timer_other w0) as (Cs & _ & _ & Cn & _).
    split; congruence. }
  clearbody w1. destruct H1 as [S1 N1].
  rewrite S1, Hd0, String.eqb_refl. congruence.
Qed.

(** A changed input followed by a quiet period: the timer callback runs in a
    world that differs from the one before the keystroke by the raw input
    only. *)
Lemma quiet_period (w : World) (v : string) (d : nat) :
  wf w -> mounted w = true -> customerId (state w) <> v -> 500 <= d ->
  exists w1,
    steps [Change v; Elapse d] w = dispatch (debounce_timeout v) w1 /\
    state w1 = update (state w) (setCustomerId v) /\
    mounted w1 = true /\ network w1 = network w /\ pending w1 = pending w /\
    next_request_id w1 = next_request_id w.
Proof.
  intros Hwf Hon Hv Hd.
  destruct (change_restarts_timer w v Hwf Hon Hv) as (Hon1 & _ & Ht1 & _ & Hn1 & _).
  destruct (change_state w v Hon) as (Hs1 & Hp1 & _).
  assert (Hr1 : next_request_id (step w (Change v)) = next_request_id w).
  { cbn [step]. rewrite Hon.
    apply (dispatch_keeps_request_id (emit (setCustomerId v)) w _ eq_refl).
    reflexivity. }
  set (w1 := step w (Change v)) in *.
  exists (with_timers (debounceTimerRef w1) [] (next_timer_id w1) w1).
  split; [| cbn; auto].
  change (steps [Change v; Elapse d] w) with (elapse d w1).
  rewrite (elapse_fires w1 _ d Ht1) by (cbn; lia). reflexivity.
Qed.

(** X6.  When the raw input changes to a value whose trimmed form is
    non-empty and differs from the current identifier, and then stays for
    500 ms or more, exactly one request is issued, the GET of the overview of
    the trimmed value; the loading flag is on, the error is cleared, and the
    loans and name of the previous customer stay in the state until the
    response arrives. *)
Theorem new_identifier_fetches_once (history : list Event) (v : string) (d : nat) :
  mounted (steps history mount) = true ->
  customerId (state (steps history mount)) <> v ->
  JS.truthy (JS.trim v) = true ->
  JS.trim v <> debouncedCustomerId (state (steps history mount)) ->
  500 <= d ->
  let w := steps history mount in
  let w' := steps [Change v; Elapse d] w in
  network w' = (network w ++ [overview_request (JS.trim v)])%list /\
  length (pending w') = S (length (pending w)) /\
  debouncedCustomerId (state w') = JS.trim v /\
  isLoading (state w') = true /\
  error (state w') = None /\
  customerLoans (state w') = customerLoans (state w) /\
  customerName (state w') = customerName (state w).
Proof.
  intros Hon Hv Ht Hnew Hd w w'. subst w'. fold w in Hon, Hv, Hnew.
  assert (Hwf : wf w) by apply steps_wf, mount_wf.
  destruct (quiet_period w v d Hwf Hon Hv Hd) as (w1 & -> & Hs1 & Hon1 & Hn1 & Hp1 & _).
  unfold dispatch.
  set (w2 := exec (debounce_timeout v) w1).
  assert (Hrun : run (debounce_timeout v) =
                 ([setDebouncedCustomerId (JS.trim v)], Fulfilled tt))
    by (rewrite run_debounce_timeout, Ht; reflexivity).
  assert (Hs2 : state w2 = update (state w1) (setDebouncedCustomerId (JS.trim v)))
    by (subst w2; rewrite exec_state, Hon1, Hrun; reflexivity).
  destruct (exec_fulfilled _ w1 _ Hrun) as (Ep2 & _ & En2 & _).
  destruct (exec_timers (debounce_timeout v) w1) as (_ & _ & _ & Em2).
  fold w2 in Ep2, En2, Em2. clearbody w2.
  unfold rerender. rewrite Em2, Hon1. cbn [negb].
  rewrite Hs2, Hs1. cbn [customerId debouncedCustomerId update].
  rewrite String.eqb_refl.
  assert (Hne : (debouncedCustomerId (state w) =? JS.trim v) = false)
    by (apply String.eqb_neq; congruence).
  rewrite Hs2. cbn [debouncedCustomerId update]. rewrite Hne.
  destruct (exec_suspended _ w2 _ _ _ (run_fetch_truthy (JS.trim v) Ht))
    as (Ep3 & _ & En3 & _).
  rewrite Ep3, En3, exec_state, Em2, Hon1, (run_fetch_truthy (JS.trim v) Ht).
  rewrite Hs2, Hs1, En2, Hn1, Ep2, Hp1, length_app. cbn.
  repeat split. lia.
Qed.

Lemma new_identifier_fetches_once_witness :
  let w := steps [] mount in
  let w' := steps [Change "  CUST001  "; Elapse 500] w in
  network w' = (network w ++ [overview_request (JS.trim "  CUST001  ")])%list /\
  length (pending w') = S (length (pending w)) /\
  debouncedCustomerId (state w') = JS.trim "  CUST001  " /\
  isLoading (state w') = true /\
  error (state w') = None /\
  customerLoans (state w') = customerLoans (state w) /\
  customerName (state w') = customerName (state w).
Proof.
  apply (new_identifier_fetches_once [] "  CUST001  " 500).
  - reflexivity.
  - discriminate.
  - reflexivity.
  - discriminate.
  - lia.
Defined.

(** X7.  When the raw input changes to a value whose trimmed form is the
    current, non-empty identifier (spaces added or removed around it) and
    then stays for 500 ms or more, the identifier is published again but
    nothing is fetched and nothing on display changes: the fetch effect does
    not re-run for an equal identifier. *)
Theorem same_identifier_fetches_nothing (history : list Event) (v : string)
        (d : nat) :
  mounted (steps history mount) = true ->
  customerId (state (steps history mount)) <> v ->
  JS.truthy (JS.trim v) = true ->
  JS.trim v = debouncedCustomerId (state (steps history mount)) ->
  500 <= d ->
  let w := steps history mount in
  let w' := steps [Change v; Elapse d] w in
  network w' = network w /\
  pending w' = pending w /\
  debouncedCustomerId (state w') = debouncedCustomerId (state w) /\
  isLoading (state w') = isLoading (state w) /\
  error (state w') = error (state w) /\
  customerLoans (state w') = customerLoans (state w) /\
  customerName (state w') = customerName (state w).
Proof.
  intros Hon Hv Ht Hsame Hd w w'. subst w'. fold w in Hon, Hv, Hsame.
  assert (Hwf : wf w) by apply steps_wf, mount_wf.
  destruct (quiet_period w v d Hwf Hon Hv Hd) as (w1 & -> & Hs1 & Hon1 & Hn1 & Hp1 & _).
  unfold dispatch.
  set (w2 := exec (debounce_timeout v) w1).
  assert (Hrun : run (debounce_timeout v) =
                 ([setDebouncedCustomerId (JS.trim v)], Fulfilled tt))
    by (rewrite run_debounce_timeout, Ht; reflexivity).
  assert (Hs2 : state w2 = update (state w1) (setDebouncedCustomerId (JS.trim v)))
    by (subst w2; rewrite exec_state, Hon1, Hrun; reflexivity).
  destruct (exec_fulfilled _ w1 _ Hrun) as (Ep2 & _ & En2 & _).
  destruct (exec_timers (debounce_timeout v) w1) as (_ & _ & _ & Em2).
  fold w2 in Ep2, En2, Em2. clearbody w2.
  unfold rerender. rewrite Em2, Hon1. cbn [negb].
  rewrite Hs2, Hs1. cbn [customerId debouncedCustomerId update].
  rewrite String.eqb_refl. cbv zeta.
  rewrite Hs2. cbn [debouncedCustomerId update].
  rewrite <- Hsame, String.eqb_refl.
  rewrite Hs2, Hs1, En2, Hn1, Ep2, Hp1. cbn. auto 8.
Qed.

Lemma same_identifier_fetches_nothing_witness :
  let w := steps [Change "CUST001"; Elapse 500] mount in
  let w' := steps [Change "CUST001 "; Elapse 500] w in
  network w' = network w /\
  pending w' = pending w /\
  debouncedCustomerId (state w') = debouncedCustomerId (state w) /\
  isLoading (state w') = isLoading (state w) /\
  error (state w') = error (state w) /\
  customerLoans (state w') = customerLoans (state w) /\
  customerName (state w') = customerName (state w).
Proof.
  apply (same_identifier_fetches_nothing [Change "CUST001"; Elapse 500] "CUST001 " 500).
  - reflexivity.
  - discriminate.
  - reflexivity.
  - reflexivity.
  - lia.
Defined.

(* ===================================================================== *)
(** * Beyond the claims: the payment form and the coordinator *)
(* ===================================================================== *)

(** X8.  With the overview of a customer on display, a payment submission
    makes [App] refetch that overview exactly when the submission passed the
    client-side check and the POST was answered 2xx with a readable body;
    a rejected submission, a non-2xx answer, an unreadable body and a network
    failure trigger no overview request. *)
Theorem payment_refreshes_exactly_on_success
        (w : World) (s : PaymentForm.State)
        (o : Outcome PaymentForm.PaymentBody) :
  mounted w = true ->
  JS.truthy (debouncedCustomerId (state w)) = true ->
  network (payment_cycle s o w) =
    (network w ++
     if negb (PaymentForm.invalid s) && accepted o
     then [overview_request (debouncedCustomerId (state w))]
     else [])%list.
Proof.
  intros Hon Hid. unfold payment_cycle, PaymentForm.handleSubmit.
  destruct (PaymentForm.invalid s); [cbn; symmetry; apply app_nil_r |].
  destruct o as [m | [st [m | b]]]; cbn; try (symmetry; apply app_nil_r).
  unfold accepted. cbn [content].
  destruct (ok {| status := st; content := json_value b |}); cbn.
  - fold (refresh (debouncedCustomerId (state w))).
    apply (refresh_issues w _ Hon Hid).
  - symmetry. apply app_nil_r.
Qed.

Lemma payment_refreshes_exactly_on_success_witness :
  let w := steps [Change "CUST001"; Elapse 500; Navigate "repay"] mount in
  let s := {| PaymentForm.selectedLoanId := "L123";
              PaymentForm.paymentAmount := "5000";
              PaymentForm.paymentType := "EMI";
              PaymentForm.responseFeedback := None;
              PaymentForm.isPaymentSuccess := None;
              PaymentForm.isProcessingPayment := false |} in
  let o := responded {| status := 400;
                        content := json_value
                          {| PaymentForm.message := Some "Loan already paid off";
                             PaymentForm.payment_id := "";
                             PaymentForm.paid_loan_id := "L123";
                             PaymentForm.remaining_balance := 0;
                             PaymentForm.emis_left_after := 0 |} |} in
  network (payment_cycle s o w) =
    (network w ++
     if negb (PaymentForm.invalid s) && accepted o
     then [overview_request (debouncedCustomerId (state w))]
     else [])%list.
Proof.
  apply (payment_refreshes_exactly_on_success
           (steps [Change "CUST001"; Elapse 500; Navigate "repay"] mount)).
  - reflexivity.
  - reflexivity.
Defined.

(* ===================================================================== *)
(** * Beyond the claims: navigation and what is on screen *)
(* ===================================================================== *)

Import AppView.

Lemma navigate_state (w : World) (view : string) :
  mounted w = true ->
  state (step w (Navigate view)) =
  apply [setCurrentView view; setError None; setSelectedLoanIdForLedger None]
    (state w).
Proof.
  intros Hon. cbn [step]. rewrite Hon.
  rewrite dispatch_keeps by reflexivity. rewrite exec_state, Hon. reflexivity.
Qed.

(** X9.  The "Loan Ledger" navigation button never opens a ledger.  While no
    loans are loaded the button is disabled and a click changes nothing.
    With loans loaded the click runs [handleViewChange], which clears the
    selected loan, and the ledger view is rendered only with a selected
    loan: after the click the area below the input is empty (apart from the
    loading line, if a fetch is in flight). *)
Theorem ledger_button_shows_nothing (w : World) :
  mounted w = true ->
  (ledger_button_disabled (state w) = true -> press_ledger_button w = w) /\
  (ledger_button_disabled (state w) = false ->
   render (state (press_ledger_button w)) =
   when (isLoading (state w)) loading_message).
Proof.
  intros Hon. unfold press_ledger_button. split; intros Hd; rewrite Hd.
  - reflexivity.
  - rewrite (navigate_state w "ledger" Hon).
    unfold render, error_shown. cbn.
    destruct (isLoading (state w)); reflexivity.
Qed.

(** The overview of CUST001 has arrived with one loan: the button is enabled. *)
Lemma ledger_button_shows_nothing_witness :
  let loan := {| loan_id := "L123"; principal := 100000; total_amount := 120000;
                 total_interest := 20000; emi_amount := 5000;
                 amount_paid := 0; emis_left := 24 |} in
  let w :=
    steps [Change "CUST001"; Elapse 500;
           Settle 1 (responded {| status := 200;
                                  content := json_value
                                    {| message := None;
                                       customer_name := Some "Asha";
                                       loans := Some [loan] |} |})] mount in
  ledger_button_disabled (state w) = false /\
  render (state (press_ledger_button w)) =
  when (isLoading (state w)) loading_message.
Proof.
  cbv zeta. split; [reflexivity |].
  apply (proj2 (ledger_button_shows_nothing
                  (steps [Change "CUST001"; Elapse 500;
                          Settle 1 (responded
                                      {| status := 200;
                                         content := json_value
                                           {| message := None;
                                              customer_name := Some "Asha";
                                              loans := Some
                                                [{| loan_id := "L123";
                                                    principal := 100000;
                                                    total_amount := 120000;
                                                    total_interest := 20000;
                                                    emi_amount := 5000;
                                                    amount_paid := 0;
                                                    emis_left := 24 |}] |} |})]
                     mount)
                  eq_refl)).
  reflexivity.
Defined.

(** X10.  After an overview fetch has failed, a press on "Back to Home"
    replaces the error by the overview of a customer without loans: the
    failure cleared loans and name, the navigation clears the error, and the
    home view then shows the empty overview with "No loans found for this
    customer". *)
Theorem navigation_turns_failure_into_no_loans
        (id : string) (o : Outcome OverviewBody) (m : string) (s : State) :
  JS.truthy id = true ->
  JS.truthy (debouncedCustomerId s) = true ->
  thrown o = Some m ->
  let failed := apply (fst (run (continuation id o))) s in
  let home := apply (fst (run (handleViewChange "home"))) failed in
  fetchState failed = Failure (error_text m) /\
  In (error_message (error_text m)) (render failed) /\
  render home =
    [CustomerOverview_element [] (debouncedCustomerId s) ""; no_loans_message].
Proof.
  intros Hid Hd Hm. cbv zeta.
  rewrite (run_continuation id o Hid), Hm. cbn [fst].
  split; [reflexivity |]. split.
  - unfold render. apply in_or_app. left. cbn. left. reflexivity.
  - unfold render, error_shown. cbn. rewrite Hd. reflexivity.
Qed.

Lemma navigation_turns_failure_into_no_loans_witness :
  let s := update initial (setDebouncedCustomerId "CUST404") in
  let failed :=
    apply (fst (run (continuation "CUST404" (network_error "Failed to fetch")))) s in
  let home := apply (fst (run (handleViewChange "home"))) failed in
  fetchState failed = Failure (error_text "Failed to fetch") /\
  In (error_message (error_text "Failed to fetch")) (render failed) /\
  render home =
    [CustomerOverview_element [] (debouncedCustomerId s) ""; no_loans_message].
Proof.
  apply (navigation_turns_failure_into_no_loans "CUST404"
           (network_error "Failed to fetch") "Failed to fetch"
           (update initial (setDebouncedCustomerId "CUST404"))).
  - reflexivity.
  - reflexivity.
  - reflexivity.
Defined.

(* ===================================================================== *)
(** * Beyond the claims: the ledger view *)
(* ===================================================================== *)

(** X11.  Whichever loan's "View Ledger" button is pressed, the ledger view
    opens on the first loan of the list: [App] passes the pressed loan as
    [loanId], but the component does not read that prop and selects
    [loans[0]]; its first and only request is the ledger of that first
    loan. *)
Theorem ledger_opens_on_first_loan
        (s : State) (pressed : string) (first : Loan) (rest : list Loan) :
  customerLoans s = first :: rest ->
  JS.truthy pressed = true ->
  JS.truthy (loan_id first) = true ->
  let s' := apply (fst (run (handleViewLedger pressed))) s in
  let props := LoanLedger_props s' pressed in
  In (LoanLedger_element props) (render s') /\
  LoanLedger.selectedLoanId (LedgerLife.state (LedgerLife.mount props)) =
    loan_id first /\
  LedgerLife.network (LedgerLife.mount props) =
    [LedgerLife.ledger_request (loan_id first)] /\
  LoanLedger.isLoadingLedger (LedgerLife.state (LedgerLife.mount props)) = true.
Proof.
  intros Hl Hp Hf. cbv zeta. split.
  - unfold render. cbn [fst run handleViewLedger].
    do 7 (apply in_or_app; right). cbn. rewrite Hp. left. reflexivity.
  - unfold LedgerLife.mount, LoanLedger_props. cbn [prop_loan_list String.eqb].
    cbn. rewrite Hl. cbn.
    unfold LedgerLife.rerender, LedgerLife.ledger_request. cbn.
    revert Hf. destruct (loan_id first) as [| c r]; [discriminate |].
    intros _. cbn. auto.
Qed.

Lemma ledger_opens_on_first_loan_witness :
  let loan id := {| loan_id := id; principal := 100000; total_amount := 120000;
                    total_interest := 20000; emi_amount := 5000;
                    amount_paid := 0; emis_left := 24 |} in
  let s := update (update initial (setDebouncedCustomerId "CUST001"))
                  (setCustomerLoans [loan "L1"; loan "L2"]) in
  let s' := apply (fst (run (handleViewLedger "L2"))) s in
  let props := LoanLedger_props s' "L2" in
  In (LoanLedger_element props) (render s') /\
  LoanLedger.selectedLoanId (LedgerLife.state (LedgerLife.mount props)) =
    loan_id (loan "L1") /\
  LedgerLife.network (LedgerLife.mount props) =
    [LedgerLife.ledger_request (loan_id (loan "L1"))] /\
  LoanLedger.isLoadingLedger (LedgerLife.state (LedgerLife.mount props)) = true.
Proof.
  apply (ledger_opens_on_first_loan
           (update (update initial (setDebouncedCustomerId "CUST001"))
              (setCustomerLoans
                 [{| loan_id := "L1"; principal := 100000; total_amount := 120000;
                     total_interest := 20000; emi_amount := 5000;
                     amount_paid := 0; emis_left := 24 |};
                  {| loan_id := "L2"; principal := 100000; total_amount := 120000;
                     total_interest := 20000; emi_amount := 5000;
                     amount_paid := 0; emis_left := 24 |}]))
           "L2"
           {| loan_id := "L1"; principal := 100000; total_amount := 120000;
              total_interest := 20000; emi_amount := 5000;
              amount_paid := 0; emis_left := 24 |}
           [{| loan_id := "L2"; principal := 100000; total_amount := 120000;
               total_interest := 20000; emi_amount := 5000;
               amount_paid := 0; emis_left := 24 |}]).
  - reflexivity.
  - reflexivity.
  - reflexivity.
Defined.

(** X12.  In the ledger view, choosing a loan in the dropdown fetches that
    loan's ledger once if it is not the loan already selected, and fetches
    nothing if it is; choosing the empty placeholder issues no request and
    clears the ledger data and the error. *)
Theorem ledger_select (w : LedgerLife.World) (loanId : string) :
  (loanId = LoanLedger.selectedLoanId (LedgerLife.state w) ->
   LedgerLife.network (LedgerLife.select loanId w) = LedgerLife.network w) /\
  (loanId <> LoanLedger.selectedLoanId (LedgerLife.state w) ->
   JS.truthy loanId = true ->
   LedgerLife.network (LedgerLife.select loanId w) =
     (LedgerLife.network w ++ [LedgerLife.ledger_request loanId])%list /\
   LoanLedger.isLoadingLedger (LedgerLife.state (LedgerLife.select loanId w)) = true /\
   LoanLedger.ledgerError (LedgerLife.state (LedgerLife.select loanId w)) = None) /\
  (loanId <> LoanLedger.selectedLoanId (LedgerLife.state w) ->
   JS.truthy loanId = false ->
   LedgerLife.network (LedgerLife.select loanId w) = LedgerLife.network w /\
   LoanLedger.loanLedgerData (LedgerLife.state (LedgerLife.select loanId w)) = None /\
   LoanLedger.ledgerError (LedgerLife.state (LedgerLife.select loanId w)) = None).
Proof.
  unfold LedgerLife.select, LedgerLife.rerender. cbn.
  split; [| split].
  - intros <-. rewrite String.eqb_refl. reflexivity.
  - intros Hne Ht. apply not_eq_sym, String.eqb_neq in Hne. rewrite Hne.
    unfold LedgerLife.exec, LoanLedger.fetchLoanLedger. rewrite Ht. cbn. auto.
  - intros Hne Ht. apply not_eq_sym, String.eqb_neq in Hne. rewrite Hne.
    unfold LedgerLife.exec, LoanLedger.fetchLoanLedger. rewrite Ht. cbn. auto.
Qed.

Lemma ledger_select_witness :
  let w := LedgerLife.mount [("loans", prop_loans
                                [{| loan_id := "L1"; principal := 100000;
                                    total_amount := 120000; total_interest := 20000;
                                    emi_amount := 5000; amount_paid := 0;
                                    emis_left := 24 |}])] in
  LedgerLife.network (LedgerLife.select "L2" w) =
    (LedgerLife.network w ++ [LedgerLife.ledger_request "L2"])%list /\
  LoanLedger.isLoadingLedger (LedgerLife.state (LedgerLife.select "L2" w)) = true /\
  LoanLedger.ledgerError (LedgerLife.state (LedgerLife.select "L2" w)) = None.
Proof.
  apply (ledger_select
           (LedgerLife.mount [("loans", prop_loans
                                 [{| loan_id := "L1"; principal := 100000;
                                     total_amount := 120000; total_interest := 20000;
                                     emi_amount := 5000; amount_paid := 0;
                                     emis_left := 24 |}])]) "L2").
  - discriminate.
  - reflexivity.
Defined.

(* ===================================================================== *)
(** * Beyond the claims: what a submission does to the form *)
(* ===================================================================== *)

(** X13.  A loan application that passed the client-side check ends, when
    the POST was answered 2xx with a readable body, marked as success with
    the four fields back at their defaults (empty, empty, empty, 10.0); on
    every other outcome it ends marked as failure with a message and with
    the four fields exactly as the user had filled them. *)
Theorem loan_form_after_submission
        (onLoanCreated : option Callback) (s : LoanApplication.State)
        (o : Outcome LoanApplication.LoanBody) :
  LoanApplication.invalid s = false ->
  let h := LoanApplication.handleSubmit onLoanCreated s in
  let s' := LoanApplication.apply
              (fst (run h) ++ fst (settle (snd (run h)) o)) s in
  LoanApplication.isSubmitting s' = false /\
  if accepted o then
    LoanApplication.isSubmissionSuccess s' = Some true /\
    LoanApplication.customerId s' = "" /\
    LoanApplication.loanAmount s' = "" /\
    LoanApplication.loanPeriodYears s' = "" /\
    LoanApplication.interestRateYearly s' = "10.0"
  else
    LoanApplication.isSubmissionSuccess s' = Some false /\
    (exists t, LoanApplication.submissionMessage s' =
               Some {| LoanApplication.text := Some t;
                       LoanApplication.shown_data := None |}) /\
    LoanApplication.customerId s' = LoanApplication.customerId s /\
    LoanApplication.loanAmount s' = LoanApplication.loanAmount s /\
    LoanApplication.loanPeriodYears s' = LoanApplication.loanPeriodYears s /\
    LoanApplication.interestRateYearly s' = LoanApplication.interestRateYearly s.
Proof.
  intros Hv. cbv zeta. unfold LoanApplication.handleSubmit. rewrite Hv.
  unfold accepted.
  destruct o as [m | [st [m | b]]]; cbn [content]; cbn.
  - repeat split. eexists. reflexivity.
  - repeat split. eexists. reflexivity.
  - destruct (ok {| status := st; content := json_value b |}).
    + destruct onLoanCreated; cbn; repeat split.
    + cbn. repeat split. eexists. reflexivity.
Qed.

Lemma loan_form_after_submission_witness :
  let s := {| LoanApplication.customerId := "CUST001";
              LoanApplication.loanAmount := "50000";
              LoanApplication.loanPeriodYears := "2";
              LoanApplication.interestRateYearly := "12.5";
              LoanApplication.submissionMessage := None;
              LoanApplication.isSubmissionSuccess := None;
              LoanApplication.isSubmitting := false |} in
  let o : Outcome LoanApplication.LoanBody := network_error "Failed to fetch" in
  let h := LoanApplication.handleSubmit None s in
  let s' := LoanApplication.apply
              (fst (run h) ++ fst (settle (snd (run h)) o)) s in
  LoanApplication.isSubmitting s' = false /\
  if accepted o then
    LoanApplication.isSubmissionSuccess s' = Some true /\
    LoanApplication.customerId s' = "" /\
    LoanApplication.loanAmount s' = "" /\
    LoanApplication.loanPeriodYears s' = "" /\
    LoanApplication.interestRateYearly s' = "10.0"
  else
    LoanApplication.isSubmissionSuccess s' = Some false /\
    (exists t, LoanApplication.submissionMessage s' =
               Some {| LoanApplication.text := Some t;
                       LoanApplication.shown_data := None |}) /\
    LoanApplication.customerId s' = LoanApplication.customerId s /\
    LoanApplication.loanAmount s' = LoanApplication.loanAmount s /\
    LoanApplication.loanPeriodYears s' = LoanApplication.loanPeriodYears s /\
    LoanApplication.interestRateYearly s' = LoanApplication.interestRateYearly s.
Proof.
  apply (loan_form_after_submission None
           {| LoanApplication.customerId := "CUST001";
              LoanApplication.loanAmount := "50000";
              LoanApplication.loanPeriodYears := "2";
              LoanApplication.interestRateYearly := "12.5";
              LoanApplication.submissionMessage := None;
              LoanApplication.isSubmissionSuccess := None;
              LoanApplication.isSubmitting := false |}
           (network_error "Failed to fetch")).
  vm_compute. reflexivity.
Defined.

(** X14.  A payment submission that passed the client-side check keeps the
    selected loan on every outcome; when the POST was answered 2xx with a
    readable body the amount is emptied and the type is back at EMI, on
    every other outcome amount and type stay as entered, so the user can
    retry. *)
Theorem payment_form_after_submission
        (onPaymentRecorded : option Callback) (s : PaymentForm.State)
        (o : Outcome PaymentForm.PaymentBody) :
  PaymentForm.invalid s = false ->
  let h := PaymentForm.handleSubmit onPaymentRecorded s in
  let s' := PaymentForm.apply (fst (run h) ++ fst (settle (snd (run h)) o)) s in
  PaymentForm.selectedLoanId s' = PaymentForm.selectedLoanId s /\
  if accepted o then
    PaymentForm.isPaymentSuccess s' = Some true /\
    PaymentForm.paymentAmount s' = "" /\
    PaymentForm.paymentType s' = "EMI"
  else
    PaymentForm.isPaymentSuccess s' = Some false /\
    PaymentForm.paymentAmount s' = PaymentForm.paymentAmount s /\
    PaymentForm.paymentType s' = PaymentForm.paymentType s.
Proof.
  intros Hv. cbv zeta. unfold PaymentForm.handleSubmit. rewrite Hv.
  unfold accepted.
  destruct o as [m | [st [m | b]]]; cbn [content]; cbn.
  - repeat split.
  - repeat split.
  - destruct (ok {| status := st; content := json_value b |}).
    + destruct onPaymentRecorded; cbn; repeat split.
    + cbn. repeat split.
Qed.

Lemma payment_form_after_submission_witness :
  let s := {| PaymentForm.selectedLoanId := "L123";
              PaymentForm.paymentAmount := "5000";
              PaymentForm.paymentType := "LUMP_SUM";
              PaymentForm.responseFeedback := None;
              PaymentForm.isPaymentSuccess := None;
              PaymentForm.isProcessingPayment := false |} in
  let o : Outcome PaymentForm.PaymentBody := network_error "Failed to fetch" in
  let h := PaymentForm.handleSubmit None s in
  let s' := PaymentForm.apply (fst (run h) ++ fst (settle (snd (run h)) o)) s in
  PaymentForm.selectedLoanId s' = PaymentForm.selectedLoanId s /\
  if accepted o then
    PaymentForm.isPaymentSuccess s' = Some true /\
    PaymentForm.paymentAmount s' = "" /\
    PaymentForm.paymentType s' = "EMI"
  else
    PaymentForm.isPaymentSuccess s' = Some false /\
    PaymentForm.paymentAmount s' = PaymentForm.paymentAmount s /\
    PaymentForm.paymentType s' = PaymentForm.paymentType s.
Proof.
  apply (payment_form_after_submission None
           {| PaymentForm.selectedLoanId := "L123";
              PaymentForm.paymentAmount := "5000";
              PaymentForm.paymentType := "LUMP_SUM";
              PaymentForm.responseFeedback := None;
              PaymentForm.isPaymentSuccess := None;
              PaymentForm.isProcessingPayment := false |}
           (network_error "Failed to fetch")).
  vm_compute. reflexivity.
Defined.

(** X15.  When the payment form receives no loans (the prop is missing or
    the list is empty), its effect empties the selection, and from then on
    no amount and no payment type the user enters can reach the network: the
    submission is answered inline and the handler ends without a request. *)
Theorem no_loans_no_payment
        (loans : option (list Loan)) (s0 : PaymentForm.State)
        (amount type : string) (onPaymentRecorded : option Callback) :
  loans = None \/ loans = Some [] ->
  let s := PaymentForm.update
             (PaymentForm.update
                (PaymentForm.apply (fst (run (PaymentForm.loans_effect loans))) s0)
                (PaymentForm.setPaymentAmount amount))
             (PaymentForm.setPaymentType type) in
  PaymentForm.selectedLoanId s = "" /\
  snd (run (PaymentForm.handleSubmit onPaymentRecorded s)) = Fulfilled tt /\
  PaymentForm.isPaymentSuccess
    (PaymentForm.apply (fst (run (PaymentForm.handleSubmit onPaymentRecorded s))) s)
    = Some false.
Proof.
  intros [-> | ->]; cbv zeta; cbn; auto.
Qed.

Lemma no_loans_no_payment_witness :
  let s := PaymentForm.update
             (PaymentForm.update
                (PaymentForm.apply
                   (fst (run (PaymentForm.loans_effect (Some [])))) PaymentForm.initial)
                (PaymentForm.setPaymentAmount "5000"))
             (PaymentForm.setPaymentType "EMI") in
  PaymentForm.selectedLoanId s = "" /\
  snd (run (PaymentForm.handleSubmit None s)) = Fulfilled tt /\
  PaymentForm.isPaymentSuccess
    (PaymentForm.apply (fst (run (PaymentForm.handleSubmit None s))) s)
    = Some false.
Proof.
  apply (no_loans_no_payment (Some []) PaymentForm.initial "5000" "EMI" None).
  right. reflexivity.
Defined.

(* ===================================================================== *)
(** * Beyond the claims: what goes on the wire *)
(* ===================================================================== *)

(** X17.  Whenever the loan application handler issues a request, it is a
    POST to the loans endpoint whose customer id is the trimmed input,
    non-empty and free of surrounding white space, and none of the numeric
    comparisons of the check holds of what is sent: the amount is not [<= 0],
    the rate is not [< 0], the period is not [<= 0]. *)
Theorem loan_request_passed_the_check
        (onLoanCreated : option Callback) (s : LoanApplication.State)
        (cs : list LoanApplication.Cmd) (r : Request)
        (k : Outcome LoanApplication.LoanBody -> LoanApplication.Handler) :
  run (LoanApplication.handleSubmit onLoanCreated s) = (cs, Suspended r k) ->
  exists id amount rate years,
    r = {| method := POST; url := LoanApplication.API_ENDPOINT;
           body := Some (loan_payload id amount rate years) |} /\
    id = JS.trim (LoanApplication.customerId s) /\
    JS.trim id = id /\ id <> "" /\
    JS.le_zero amount = false /\ JS.lt_zero rate = false /\
    JS.le_zero years = false.
Proof.
  unfold LoanApplication.handleSubmit.
  destruct (LoanApplication.invalid s) eqn:Hv; [discriminate |].
  cbn. intros H. injection H as _ <- _.
  unfold LoanApplication.invalid in Hv.
  apply orb_false_iff in Hv. destruct Hv as [Hv Hy].
  apply orb_false_iff in Hv. destruct Hv as [Hv Hr].
  apply orb_false_iff in Hv. destruct Hv as [Hid Ha].
  eexists _, _, _, _. split; [reflexivity |].
  repeat split; try assumption.
  - apply trim_fixed.
  - apply negb_false_iff in Hid. unfold JS.truthy in Hid.
    apply negb_true_iff, String.eqb_neq in Hid. exact Hid.
Qed.

Lemma loan_request_passed_the_check_witness :
  exists id amount rate years,
    LoanApplication.loan_request
      {| LoanApplication.customerId := " CUST001 ";
         LoanApplication.loanAmount := "50000";
         LoanApplication.loanPeriodYears := "2";
         LoanApplication.interestRateYearly := "10.0";
         LoanApplication.submissionMessage := None;
         LoanApplication.isSubmissionSuccess := None;
         LoanApplication.isSubmitting := false |} =
    {| method := POST; url := LoanApplication.API_ENDPOINT;
       body := Some (loan_payload id amount rate years) |} /\
    id = JS.trim " CUST001 " /\
    JS.trim id = id /\ id <> "" /\
    JS.le_zero amount = false /\ JS.lt_zero rate = false /\
    JS.le_zero years = false.
Proof.
  eapply (loan_request_passed_the_check None
            {| LoanApplication.customerId := " CUST001 ";
               LoanApplication.loanAmount := "50000";
               LoanApplication.loanPeriodYears := "2";
               LoanApplication.interestRateYearly := "10.0";
               LoanApplication.submissionMessage := None;
               LoanApplication.isSubmissionSuccess := None;
               LoanApplication.isSubmitting := false |}).
  vm_compute. reflexivity.
Defined.

(** X18.  Whenever the payment handler issues a request, it is a POST to
    [/loans/ID/payments] for the selected loan, which is non-empty, with a
    non-empty payment type and an amount of which [<= 0] does not hold. *)
Theorem payment_request_passed_the_check
        (onPaymentRecorded : option Callback) (s : PaymentForm.State)
        (cs : list PaymentForm.Cmd) (r : Request)
        (k : Outcome PaymentForm.PaymentBody -> PaymentForm.Handler) :
  run (PaymentForm.handleSubmit onPaymentRecorded s) = (cs, Suspended r k) ->
  exists amount,
    r = {| method := POST;
           url := PaymentForm.API_BASE_URL ++ "/loans/"
                  ++ PaymentForm.selectedLoanId s ++ "/payments";
           body := Some (payment_payload amount (PaymentForm.paymentType s)) |} /\
    PaymentForm.selectedLoanId s <> "" /\
    PaymentForm.paymentType s <> "" /\
    JS.le_zero amount = false.
Proof.
  unfold PaymentForm.handleSubmit.
  destruct (PaymentForm.invalid s) eqn:Hv; [discriminate |].
  cbn. intros H. injection H as _ <- _.
  unfold PaymentForm.invalid in Hv.
  apply orb_false_iff in Hv. destruct Hv as [Hv Ht].
  apply orb_false_iff in Hv. destruct Hv as [Hid Ha].
  assert (Hne : forall x, negb (JS.truthy x) = false -> x <> "").
  { intros x Hx. apply negb_false_iff in Hx. unfold JS.truthy in Hx.
    apply negb_true_iff, String.eqb_neq in Hx. exact Hx. }
  eexists. split; [reflexivity |]. auto.
Qed.

Lemma payment_request_passed_the_check_witness :
  exists amount,
    PaymentForm.payment_request
      {| PaymentForm.selectedLoanId := "L123";
         PaymentForm.paymentAmount := "5000";
         PaymentForm.paymentType := "EMI";
         PaymentForm.responseFeedback := None;
         PaymentForm.isPaymentSuccess := None;
         PaymentForm.isProcessingPayment := false |} =
    {| method := POST;
       url := PaymentForm.API_BASE_URL ++ "/loans/" ++ "L123" ++ "/payments";
       body := Some (payment_payload amount "EMI") |} /\
    "L123" <> "" /\ "EMI" <> "" /\ JS.le_zero amount = false.
Proof.
  eapply (payment_request_passed_the_check None
            {| PaymentForm.selectedLoanId := "L123";
               PaymentForm.paymentAmount := "5000";
               PaymentForm.paymentType := "EMI";
               PaymentForm.responseFeedback := None;
               PaymentForm.isPaymentSuccess := None;
               PaymentForm.isProcessingPayment := false |}).
  vm_compute. reflexivity.
Defined.

(** X19.  Requests in flight are not deduplicated: calling the refresh
    trigger twice for a present identifier before any response arrives
    issues two identical GETs and leaves two continuations pending. *)
Theorem refreshes_are_not_deduplicated (w : World) (id : string) :
  mounted w = true ->
  JS.truthy id = true ->
  let w' := steps [refresh id; refresh id] w in
  network w' = (network w ++ [overview_request id; overview_request id])%list /\
  length (pending w') = 2 + length (pending w).
Proof.
  intros Hon Hid. cbv zeta.
  destruct (refresh_issues w id Hon Hid) as (_ & M1 & P1 & _ & N1).
  change (steps [refresh id; refresh id] w)
    with (step (step w (refresh id)) (refresh id)).
  set (w1 := step w (refresh id)) in *.
  destruct (refresh_issues w1 id M1 Hid) as (_ & _ & P2 & _ & N2).
  rewrite N2, N1, P2, P1, <- app_assoc, !length_app. cbn. split; [reflexivity | lia].
Qed.

Lemma refreshes_are_not_deduplicated_witness :
  let w' := steps [refresh "CUST001"; refresh "CUST001"] mount in
  network w' =
    (network mount ++ [overview_request "CUST001"; overview_request "CUST001"])%list /\
  length (pending w') = 2 + length (pending mount).
Proof.
  apply (refreshes_are_not_deduplicated mount "CUST001").
  - reflexivity.
  - reflexivity.
Defined.
